(** * webhealthcheck: health evaluation, streak notifications, history
      retention and the 24-hour availability grid

    A shallow embedding of [index.js] (the monitor: [checkDomain],
    [addToHistory], [saveDomainHistory], [loadDomainHistory],
    [loadAllPersistedData], [runHealthChecks], [start] and the grid and
    counts of [generateHistoryPage]), of the stand-alone [persistence.js],
    and of the earlier [checkDomain] that accepted status 200 only.

    Conventions of the embedding.
    - Instants are milliseconds since the epoch, in [Z], as [Date.getTime]
      returns them.  Counters are JavaScript numbers that only ever hold
      small non-negative integers; they are [Z] as well.
    - The clock is an input: every function that reads [Date.now()] or
      [new Date()] takes the reading as an argument.
    - The two global maps [healthState] and [healthHistory] and the data
      directory are fields of an explicit [World] that is passed through.
    - A file of the data directory is represented by what [JSON.parse]
      makes of its text (see [FileContent]). *)

From Stdlib Require Import ZArith QArith Qround String Ascii List Lia.
From stdpp Require Import gmap strings list fin_maps pretty sorting.

Local Open Scope string_scope.
Local Open Scope list_scope.
Local Open Scope Z_scope.

(** ** JavaScript values found in the fields of a history entry *)

(** The values a [timestamp] or [status] property can hold after
    [JSON.parse], as far as truthiness and [new Date(v)] tell them apart.
    [JIso ms] is a string that [Date] parses to the instant [ms], such as
    the one [toISOString] writes; [JStr s] is any other string. *)
Inductive jsval : Type :=
  | JUndefined                (* the property is absent *)
  | JNull
  | JBool (b : bool)
  | JNum (n : Z)              (* an integer-valued number *)
  | JStr (s : string)
  | JIso (ms : Z).

#[global] Instance jsval_eq_dec : EqDecision jsval.
Proof. solve_decision. Defined.

(** [ToBoolean]: what [v && ...] tests. *)
Definition truthy (v : jsval) : bool :=
  match v with
  | JUndefined | JNull => false
  | JBool b => b
  | JNum n => negb (n =? 0)
  | JStr s => negb (String.eqb s EmptyString)
  | JIso _ => true
  end.

(** The largest time value a [Date] holds (ECMAScript time clip). *)
Definition maxTime : Z := 8640000000000000.

(** [new Date(v).getTime()]; [None] is [NaN], the time value of an
    invalid date. *)
Definition Date_getTime (v : jsval) : option Z :=
  match v with
  | JUndefined => None
  | JNull => Some 0
  | JBool b => Some (if b then 1 else 0)
  | JNum n => if (- maxTime <=? n) && (n <=? maxTime) then Some n else None
  | JStr _ => None
  | JIso ms => Some ms
  end.

(** [new Date(v) >= bound] for a valid date [bound]: the comparison is
    on time values and is false as soon as one side is [NaN]. *)
Definition Date_ge (v : jsval) (bound : Z) : bool :=
  match Date_getTime v with
  | Some t => bound <=? t
  | None => false
  end.

(** ** History entries *)

Module Entry.
(** [{timestamp: ..., status: ...}], one element of a history array. *)
Record t : Type := mk { timestamp : jsval; status : jsval }.

#[global] Instance eq_dec : EqDecision t.
Proof. solve_decision. Defined.
End Entry.

(** [30 * 24 * 60 * 60 * 1000]: the retention window in milliseconds. *)
Definition oneMonth : Z := 30 * 24 * 60 * 60 * 1000.

(** [history.filter(entry => new Date(entry.timestamp) >= oneMonthAgo)]
    with [oneMonthAgo = new Date(now - 30 * 24 * 60 * 60 * 1000)]. *)
Definition withinLastMonth (now : Z) (entry : Entry.t) : bool :=
  Date_ge (Entry.timestamp entry) (now - oneMonth).

Definition keepLastMonth (now : Z) (history : list Entry.t) : list Entry.t :=
  List.filter (withinLastMonth now) history.

(** ** The data directory *)

(** An element of a parsed JSON array.  Reading a property of [null]
    throws a [TypeError]; an element that is a number, a string, a boolean
    or an array has no [timestamp] and no [status] property and behaves,
    for the filters below, as the object [ElemObj (Entry.mk JUndefined
    JUndefined)]. *)
Inductive Elem : Type :=
  | ElemNull
  | ElemObj (entry : Entry.t).

(** The content of a file, seen through [fs.readFileSync] and
    [JSON.parse]. *)
Inductive FileContent : Type :=
  | Unreadable                        (* readFileSync throws *)
  | Malformed                         (* JSON.parse throws a SyntaxError *)
  | NotArray                          (* a JSON value with no filter method *)
  | JsonArray (elems : list Elem).

(** The data directory: the files in it (a missing key is a file for
    which [fs.existsSync] is false) and whether [fs.writeFileSync]
    succeeds once [ensureDataDir] has done what it can. *)
Record Disk : Type := mkDisk {
  writable : bool;
  files : gmap string FileContent
}.

(** [JSON.parse(JSON.stringify(history, null, 2))]: absent properties are
    left out by [stringify] and are absent again after [parse]. *)
Definition stored (history : list Entry.t) : FileContent :=
  JsonArray (map ElemObj history).

(** [array.filter(keep)] over parsed elements: the first [null] element
    makes the callback throw, which abandons the whole filter ([None]). *)
Fixpoint filterElems (keep : Entry.t -> bool) (elems : list Elem)
    : option (list Entry.t) :=
  match elems with
  | [] => Some []
  | ElemNull :: _ => None
  | ElemObj entry :: rest =>
      match filterElems keep rest with
      | None => None
      | Some kept => Some (if keep entry then entry :: kept else kept)
      end
  end.

(** [domain.replace(/[^a-zA-Z0-9.-]/g, '_')], one code unit at a time.
    A string of the embedding is a sequence of 8-bit code units, which
    covers the URLs a domain is configured with. *)
Definition safeChar (c : ascii) : ascii :=
  let n := nat_of_ascii c in
  if ((97 <=? n) && (n <=? 122) || (65 <=? n) && (n <=? 90)
      || (48 <=? n) && (n <=? 57) || (n =? 46) || (n =? 45))%nat
  then c else "_"%char.

Fixpoint sanitize (domain : string) : string :=
  match domain with
  | EmptyString => EmptyString
  | String c rest => String (safeChar c) (sanitize rest)
  end.

(** [haystack.includes(needle)] *)
Fixpoint includes (haystack needle : string) : bool :=
  String.prefix needle haystack ||
  match haystack with
  | EmptyString => false
  | String _ rest => includes rest needle
  end.

(** * index.js *)

Module Index.

(** The part of [config] the functions below read. *)
Record Config : Type := mkConfig {
  domains : list string;
  timeoutSeconds : Z
}.

Inductive Status : Type := unknown | healthy | unhealthy.

(** One value of the [healthState] map. *)
Record State : Type := mkState {
  status : Status;
  lastCheck : option Z;
  lastError : option string;
  consecutiveErrors : Z;
  consecutiveSuccesses : Z;
  responseTime : option Z
}.

Definition initialState : State :=
  {| status := unknown; lastCheck := None; lastError := None;
     consecutiveErrors := 0; consecutiveSuccesses := 0;
     responseTime := None |}.

Record World : Type := mkWorld {
  healthState : gmap string State;
  healthHistory : gmap string (list Entry.t);
  disk : Disk
}.

(** The module's start-up loop over [config.domains]. *)
Definition initialWorld (config : Config) (d : Disk) : World :=
  {| healthState :=
       foldl (fun m domain => <[domain := initialState]> m) ∅ (domains config);
     healthHistory :=
       foldl (fun m domain => <[domain := []]> m) ∅ (domains config);
     disk := d |}.

(** ** Persistence *)

Definition getDomainFileName (domain : string) : string :=
  sanitize domain +:+ ".json".

(** A failed write is caught and logged; the directory is left as it
    was. *)
Definition saveDomainHistory (domain : string) (history : list Entry.t)
    (d : Disk) : Disk :=
  if writable d
  then {| writable := true;
          files := <[getDomainFileName domain := stored history]> (files d) |}
  else d.

(** The callback of the filter in [loadDomainHistory]. *)
Definition validRecent (now : Z) (entry : Entry.t) : bool :=
  truthy (Entry.timestamp entry) && truthy (Entry.status entry)
  && Date_ge (Entry.timestamp entry) (now - oneMonth).

(** Every exception of the [try] block ends in the same [return []] as a
    missing file. *)
Definition loadDomainHistory (domain : string) (now : Z) (d : Disk)
    : list Entry.t :=
  match files d !! getDomainFileName domain with
  | None => []
  | Some Unreadable => []
  | Some Malformed => []
  | Some NotArray => []
  | Some (JsonArray elems) =>
      match filterElems (validRecent now) elems with
      | Some history => history
      | None => []
      end
  end.

Definition loadAllPersistedData (config : Config) (now : Z) (w : World)
    : World :=
  foldl (fun w domain =>
           let history := loadDomainHistory domain now (disk w) in
           if (0 <? length history)%nat
           then {| healthState := healthState w;
                   healthHistory := <[domain := history]> (healthHistory w);
                   disk := disk w |}
           else w)
        w (domains config).

(** [addToHistory(domain, status)] at clock reading [now].  The push
    goes into the array the map holds; the map is then given the filtered
    copy, which is also what is written to the data directory. *)
Definition addToHistory (domain status : string) (now : Z) (w : World)
    : World :=
  let history := default [] (healthHistory w !! domain) in
  let pushed := history ++ [Entry.mk (JIso now) (JStr status)] in
  let filteredHistory := keepLastMonth now pushed in
  {| healthState := healthState w;
     healthHistory := <[domain := filteredHistory]> (healthHistory w);
     disk := saveDomainHistory domain filteredHistory (disk w) |}.

(** ** The health check *)

(** What [makeHttpRequest] resolves with. *)
Record Response : Type := mkResponse { statusCode : Z; body : string }.

(** The three messages [checkDomain] hands to [sendSlackNotification]:
    - [Recovered d]: "[d] is now healthy after 10 consecutive successful
      checks";
    - [Alert d e]: "[d] is unhealthy: [e]";
    - [Sustained d e]: "[d] has been unhealthy for 5 minutes: [e]". *)
Inductive Notification : Type :=
  | Recovered (domain : string)
  | Alert (domain reason : string)
  | Sustained (domain reason : string).

#[global] Instance Notification_eq_dec : EqDecision Notification.
Proof. solve_decision. Defined.

(** Everything one call of [checkDomain] takes from outside: the request
    ([inl] the response, [inr] the message of the rejection), the clock
    readings, and the webhook ([None]: the message was taken; [Some e]:
    [sendSlackNotification] rejects with message [e]). *)
Record Probe : Type := mkProbe {
  startTime : Z;
  request : Response + string;
  respondedAt : Z;
  checkedAt : Z;
  slack : Notification -> option string
}.

(** The first half of the [try] block: the message of the error that is
    thrown, [None] when the success branch is reached. *)
Definition classify (config : Config) (p : Probe) : option string :=
  match request p with
  | inr message => Some message
  | inl response =>
      let responseTime := respondedAt p - startTime p in
      if (statusCode response <? 200) || (400 <=? statusCode response)
      then Some ("HTTP " +:+ pretty (statusCode response))
      else if timeoutSeconds config * 1000 <? responseTime
      then Some ("Response time " +:+ pretty responseTime +:+ "ms exceeds "
                 +:+ pretty (timeoutSeconds config * 1000) +:+ "ms")
      else if includes (body response) "A PHP Error was encountered"
      then Some "PHP Error detected in page content"
      else None
  end.

(** What a call leaves behind: the world, the notifications handed to
    the webhook in order, and the error with which the call itself
    rejects, if any. *)
Record Result : Type := mkResult {
  world : World;
  sent : list Notification;
  rejected : option string
}.

Definition setState (domain : string) (state : State) (w : World) : World :=
  {| healthState := <[domain := state]> (healthState w);
     healthHistory := healthHistory w;
     disk := disk w |}.

(** The assignments under "// Success". *)
Definition succeeded (p : Probe) (state : State) : State :=
  {| status := healthy;
     lastCheck := Some (checkedAt p);
     lastError := None;
     consecutiveErrors := 0;
     consecutiveSuccesses := consecutiveSuccesses state + 1;
     responseTime := Some (respondedAt p - startTime p) |}.

(** The assignments under "// Error occurred", for
    [error.message = message]. *)
Definition failed (message : string) (p : Probe) (state : State) : State :=
  {| status := unhealthy;
     lastCheck := Some (checkedAt p);
     lastError := Some message;
     consecutiveErrors := consecutiveErrors state + 1;
     consecutiveSuccesses := 0;
     responseTime := Some (checkedAt p - startTime p) |}.

(** The [catch] block.  [state] is the object as the [try] block left
    it and [sentBefore] what that block had handed to the webhook.  A
    rejection of the webhook leaves the block at once. *)
Definition onError (domain message : string) (p : Probe) (state : State)
    (w : World) (sentBefore : list Notification) : Result :=
  let state' := failed message p state in
  let w' := addToHistory domain "unhealthy" (checkedAt p)
              (setState domain state' w) in
  let first :=
    if consecutiveErrors state' =? 1
    then mkResult w' (sentBefore ++ [Alert domain message])
           (slack p (Alert domain message))
    else mkResult w' sentBefore None in
  match rejected first with
  | Some _ => first
  | None =>
      if consecutiveErrors state' =? 5
      then mkResult w' (sent first ++ [Sustained domain message])
             (slack p (Sustained domain message))
      else first
  end.

(** [checkDomain(domain)].  For a domain that is not in [healthState]
    the first assignment to [state] throws in the [try] block and again
    in the handler.  A rejection of the webhook inside the [try] block is
    caught like any other error. *)
Definition checkDomain (config : Config) (domain : string) (p : Probe)
    (w : World) : Result :=
  match healthState w !! domain with
  | None => mkResult w [] (Some "TypeError")
  | Some state =>
      match classify config p with
      | Some message => onError domain message p state w []
      | None =>
          let state' := succeeded p state in
          let w' := addToHistory domain "healthy" (checkedAt p)
                      (setState domain state' w) in
          if consecutiveSuccesses state' =? 10
          then match slack p (Recovered domain) with
               | None => mkResult w' [Recovered domain] None
               | Some message =>
                   onError domain message p state' w' [Recovered domain]
               end
          else mkResult w' [] None
      end
  end.

(** Successive checks of one domain, each on the world the previous one
    left. *)
Fixpoint checks (config : Config) (domain : string) (ps : list Probe)
    (w : World) : list Result :=
  match ps with
  | [] => []
  | p :: rest =>
      let r := checkDomain config domain p w in
      r :: checks config domain rest (world r)
  end.

(** The world after successive checks of one domain. *)
Definition after (config : Config) (domain : string) (ps : list Probe)
    (w : World) : World :=
  foldl (fun w p => world (checkDomain config domain p w)) w ps.

(** ** The 24-hour grid of [generateHistoryPage] *)

Definition minutesInDay : Z := 24 * 60.

Module Cell.
(** One element of [grid].  The source also stores [hour] and
    [minute], the local-time reading of [time]; they play no part in
    the mapping. *)
Record t : Type := mk { time : Z; status : jsval }.
End Cell.

(** The loop that fills [grid] with 'unknown' cells. *)
Definition emptyGrid (now : Z) : list Cell.t :=
  (fun i => Cell.mk (now - (minutesInDay - i - 1) * 60 * 1000) (JStr "unknown"))
    <$> seqZ 0 minutesInDay.

(** [Math.round]: the nearest integer, a tie going up. *)
Definition Math_round (q : Q) : Z := Qfloor (q + (1 # 2))%Q.

(** [(entryTime.getTime() - (now.getTime() - minutesInDay * 60 * 1000))
    / (60 * 1000)], taken as an exact quotient.  The source divides two
    integers in IEEE double precision; the quotient of an integer by
    60000 lies at least 1/60000 away from any other half-integer, far
    more than the rounding error of the division for every instant a
    [Date] can hold, so [Math.round] of the double is the rounding of the
    exact quotient. *)
Definition rawMinutes (now entryTime : Z) : Q :=
  (inject_Z (entryTime - (now - minutesInDay * 60 * 1000))
   / inject_Z (60 * 1000))%Q.

Definition minutesFromStart (now entryTime : Z) : Z :=
  Z.max 0 (Z.min (minutesInDay - 1) (Math_round (rawMinutes now entryTime))).

Definition setStatus (s : jsval) (cell : Cell.t) : Cell.t :=
  Cell.mk (Cell.time cell) s.

(** The body of [history.forEach].  With an invalid date every
    intermediate value is [NaN] and the guard before the write is
    false. *)
Definition fillEntry (now : Z) (grid : list Cell.t) (entry : Entry.t)
    : list Cell.t :=
  match Date_getTime (Entry.timestamp entry) with
  | None => grid
  | Some entryTime =>
      let m := minutesFromStart now entryTime in
      if (0 <=? m) && (m <? minutesInDay)
      then alter (setStatus (Entry.status entry)) (Z.to_nat m) grid
      else grid
  end.

(** [grid] as it stands after the [forEach], for the clock reading
    [now]. *)
Definition historyGrid (now : Z) (history : list Entry.t) : list Cell.t :=
  foldl (fillEntry now) (emptyGrid now) history.

(** The status of each slot, oldest first. *)
Definition slotStatuses (grid : list Cell.t) : list jsval :=
  Cell.status <$> grid.

(** [v === s] for a string literal [s].  A date string is neither
    'healthy' nor 'unhealthy'. *)
Definition strictEq (v : jsval) (s : string) : bool :=
  match v with
  | JStr t => String.eqb t s
  | _ => false
  end.

(** [grid.filter(m => m.status === 'healthy').length], the numerator of
    the uptime figure. *)
Definition healthyMinutes (grid : list Cell.t) : nat :=
  length (List.filter (fun m => strictEq (Cell.status m) "healthy") grid).

(** [grid.filter(m => m.status === 'unhealthy').length], shown as
    "Minutes Down". *)
Definition minutesDown (grid : list Cell.t) : nat :=
  length (List.filter (fun m => strictEq (Cell.status m) "unhealthy") grid).

(** ** The pass over all domains *)

(** The [for] loop of [runHealthChecks] from position [i] of
    [config.domains] on; [probe i] is what the check at position [i]
    meets.  A check that rejects ends the loop: the [await] throws. *)
Fixpoint checkEach (config : Config) (probe : nat -> Probe) (i : nat)
    (ds : list string) (w : World) : Result :=
  match ds with
  | [] => mkResult w [] None
  | domain :: rest =>
      let r := checkDomain config domain (probe i) w in
      match rejected r with
      | Some _ => r
      | None =>
          let r' := checkEach config probe (S i) rest (world r) in
          mkResult (world r') (sent r ++ sent r') (rejected r')
      end
  end.

(** [runHealthChecks()], with the value it assigns to [nextCheckTime]
    ([None]: the assignment is not reached). *)
Definition runHealthChecks (config : Config) (checkIntervalMinutes : Z)
    (probe : nat -> Probe) (now : Z) (w : World) : Result * option Z :=
  let r := checkEach config probe 0 (domains config) w in
  (r, match rejected r with
      | Some _ => None
      | None => Some (now + checkIntervalMinutes * 60 * 1000)
      end).

(** [start()], as far as the world goes: with no domain configured the
    process exits ([None]); otherwise the persisted histories are loaded
    at clock reading [loadedAt] and the first pass runs.  The start-up
    notification is sent without being awaited and its failure is only
    logged. *)
Definition start (config : Config) (checkIntervalMinutes : Z)
    (probe : nat -> Probe) (loadedAt now : Z) (w : World)
    : option (Result * option Z) :=
  if (length (domains config) =? 0)%nat
  then None
  else Some (runHealthChecks config checkIntervalMinutes probe now
               (loadAllPersistedData config loadedAt w)).

End Index.

(** * persistence.js *)

Module Persistence.

Definition MAX_AGE_DAYS : Z := 30.

Definition getDomainFilePath (domain : string) : string :=
  sanitize domain +:+ ".json".

(** The callback of both filters of this file. *)
Definition recent (now : Z) (entry : Entry.t) : bool :=
  Date_ge (Entry.timestamp entry) (now - MAX_AGE_DAYS * 24 * 60 * 60 * 1000).

Definition loadDomainHistory (domain : string) (now : Z) (d : Disk)
    : list Entry.t :=
  match files d !! getDomainFilePath domain with
  | None => []
  | Some Unreadable => []
  | Some Malformed => []
  | Some NotArray => []
  | Some (JsonArray elems) =>
      match filterElems (recent now) elems with
      | Some filteredHistory => filteredHistory
      | None => []
      end
  end.

Definition saveDomainHistory (domain : string) (history : list Entry.t)
    (now : Z) (d : Disk) : Disk :=
  let filteredHistory := List.filter (recent now) history in
  if writable d
  then {| writable := true;
          files := <[getDomainFilePath domain := stored filteredHistory]>
                     (files d) |}
  else d.

(** [loadAllHistory(domains)]: a map with one key per domain. *)
Definition loadAllHistory (domains : list string) (now : Z) (d : Disk)
    : gmap string (list Entry.t) :=
  foldl (fun historyMap domain =>
           <[domain := loadDomainHistory domain now d]> historyMap)
        ∅ domains.

(** [saveAllHistory(healthHistory)]; [entries] are the entries of the
    map in the order it iterates them, the order of insertion, and [now]
    is the clock reading of the saves, which follow one another at
    once. *)
Definition saveAllHistory (entries : list (string * list Entry.t)) (now : Z)
    (d : Disk) : Disk :=
  foldl (fun d entry => saveDomainHistory entry.1 entry.2 now d) d entries.

End Persistence.

(** * The earlier index.js *)

(** The monitor before histories were kept: it accepts status 200 only,
    allows 5000 ms, and has the same counters and notifications. *)
Module Legacy.

Import Index.

Definition classify (p : Probe) : option string :=
  match request p with
  | inr message => Some message
  | inl response =>
      let responseTime := respondedAt p - startTime p in
      if negb (statusCode response =? 200)
      then Some ("HTTP " +:+ pretty (statusCode response))
      else if 5000 <? responseTime
      then Some ("Response time " +:+ pretty responseTime
                 +:+ "ms exceeds 5000ms")
      else if includes (body response) "A PHP Error was encountered"
      then Some "PHP Error detected in page content"
      else None
  end.

(** What a call leaves: the [healthState] map, the notifications handed
    over, and the error the call rejects with. *)
Definition onError (domain message : string) (p : Probe) (state : State)
    (states : gmap string State) (sentBefore : list Notification)
    : gmap string State * list Notification * option string :=
  let state' := failed message p state in
  let states' := <[domain := state']> states in
  let first :=
    if consecutiveErrors state' =? 1
    then (states', sentBefore ++ [Alert domain message],
          slack p (Alert domain message))
    else (states', sentBefore, None) in
  match first.2 with
  | Some _ => first
  | None =>
      if consecutiveErrors state' =? 5
      then (states', first.1.2 ++ [Sustained domain message],
            slack p (Sustained domain message))
      else first
  end.

Definition checkDomain (domain : string) (p : Probe)
    (states : gmap string State)
    : gmap string State * list Notification * option string :=
  match states !! domain with
  | None => (states, [], Some "TypeError")
  | Some state =>
      match classify p with
      | Some message => onError domain message p state states []
      | None =>
          let state' := succeeded p state in
          let states' := <[domain := state']> states in
          if consecutiveSuccesses state' =? 10
          then match slack p (Recovered domain) with
               | None => (states', [Recovered domain], None)
               | Some message =>
                   onError domain message p state' states' [Recovered domain]
               end
          else (states', [], None)
      end
  end.

End Legacy.

(** * Properties *)

Import Index.

(** ** One check *)

(** The state and the notifications one check leaves, by the way the
    check went. *)
Section Step.
Context (config : Config) (domain : string) (p : Probe) (w : World)
        (state : State).
Hypothesis Hstate : healthState w !! domain = Some state.

Lemma healthState_addToHistory status now w0 :
  healthState (addToHistory domain status now w0) = healthState w0.
Proof. reflexivity. Qed.

Lemma onError_state message st w0 before :
  healthState (world (onError domain message p st w0 before)) !! domain
  = Some (failed message p st).
Proof.
  unfold onError.
  repeat (case_match; simpl); apply lookup_insert_eq.
Qed.

Lemma onError_sent message st w0 before :
  sent (onError domain message p st w0 before)
  = before ++
    (if consecutiveErrors st + 1 =? 1 then [Alert domain message]
     else if consecutiveErrors st + 1 =? 5 then [Sustained domain message]
     else []).
Proof.
  unfold onError. simpl.
  destruct (consecutiveErrors st + 1 =? 1) eqn:E1; simpl.
  - assert ((consecutiveErrors st + 1 =? 5) = false) as -> by lia.
    by destruct (slack p _).
  - destruct (consecutiveErrors st + 1 =? 5); simpl;
      by rewrite ?app_nil_r.
Qed.

Lemma checkDomain_failing message :
  classify config p = Some message ->
  let r := checkDomain config domain p w in
  healthState (world r) !! domain = Some (failed message p state)
  /\ sent r =
     (if consecutiveErrors state + 1 =? 1 then [Alert domain message]
      else if consecutiveErrors state + 1 =? 5
           then [Sustained domain message] else []).
Proof.
  intros Hc. unfold checkDomain. rewrite Hstate, Hc. simpl. split.
  - apply onError_state.
  - by rewrite onError_sent.
Qed.

Lemma checkDomain_passing :
  classify config p = None ->
  consecutiveSuccesses state + 1 <> 10 ->
  let r := checkDomain config domain p w in
  healthState (world r) !! domain = Some (succeeded p state)
  /\ sent r = [].
Proof.
  intros Hc Hn. unfold checkDomain. rewrite Hstate, Hc. simpl.
  assert ((consecutiveSuccesses state + 1 =? 10) = false) as -> by lia.
  simpl. split; [apply lookup_insert_eq | done].
Qed.

Lemma checkDomain_tenth :
  classify config p = None ->
  consecutiveSuccesses state + 1 = 10 ->
  slack p (Recovered domain) = None ->
  let r := checkDomain config domain p w in
  healthState (world r) !! domain = Some (succeeded p state)
  /\ sent r = [Recovered domain].
Proof.
  intros Hc Hn Hs. unfold checkDomain. rewrite Hstate, Hc. simpl.
  assert ((consecutiveSuccesses state + 1 =? 10) = true) as -> by lia.
  rewrite Hs. simpl. split; [apply lookup_insert_eq | done].
Qed.

(** The webhook rejects the recovery message: the handler runs on the
    state the success branch has just written. *)
Lemma checkDomain_tenth_rejected message :
  classify config p = None ->
  consecutiveSuccesses state + 1 = 10 ->
  slack p (Recovered domain) = Some message ->
  let r := checkDomain config domain p w in
  healthState (world r) !! domain
  = Some (failed message p (succeeded p state))
  /\ sent r = [Recovered domain; Alert domain message].
Proof.
  intros Hc Hn Hs. unfold checkDomain. rewrite Hstate, Hc. simpl.
  assert ((consecutiveSuccesses state + 1 =? 10) = true) as -> by lia.
  rewrite Hs. split.
  - apply onError_state.
  - by rewrite onError_sent.
Qed.
End Step.

(** What one check makes of the state of its domain, with the
    notifications it hands to the webhook. *)
Inductive CheckStep (config : Config) (domain : string) (p : Probe)
    (state : State) : State -> list Notification -> Prop :=
  | step_failing message :
      classify config p = Some message ->
      CheckStep config domain p state (failed message p state)
        (if consecutiveErrors state + 1 =? 1 then [Alert domain message]
         else if consecutiveErrors state + 1 =? 5
              then [Sustained domain message] else [])
  | step_passing :
      classify config p = None ->
      consecutiveSuccesses state + 1 <> 10 ->
      CheckStep config domain p state (succeeded p state) []
  | step_tenth :
      classify config p = None ->
      consecutiveSuccesses state + 1 = 10 ->
      slack p (Recovered domain) = None ->
      CheckStep config domain p state (succeeded p state) [Recovered domain]
  | step_tenth_rejected message :
      classify config p = None ->
      consecutiveSuccesses state + 1 = 10 ->
      slack p (Recovered domain) = Some message ->
      CheckStep config domain p state (failed message p (succeeded p state))
        [Recovered domain; Alert domain message].

Lemma checkDomain_CheckStep config domain p w state :
  healthState w !! domain = Some state ->
  exists state',
    healthState (world (checkDomain config domain p w)) !! domain = Some state'
    /\ CheckStep config domain p state state'
         (sent (checkDomain config domain p w)).
Proof.
  intros Hstate.
  destruct (classify config p) as [message|] eqn:Hc.
  - destruct (checkDomain_failing config domain p w state Hstate message Hc)
      as [-> ->].
    eexists; split; [done | by constructor].
  - destruct (decide (consecutiveSuccesses state + 1 = 10)) as [Hten|Hten].
    + destruct (slack p (Recovered domain)) as [message|] eqn:Hs.
      * destruct (checkDomain_tenth_rejected config domain p w state Hstate
                    message Hc Hten Hs) as [-> ->].
        eexists; split; [done | by constructor].
      * destruct (checkDomain_tenth config domain p w state Hstate Hc Hten Hs)
          as [-> ->].
        eexists; split; [done | by constructor].
    + destruct (checkDomain_passing config domain p w state Hstate Hc Hten)
        as [-> ->].
      eexists; split; [done | by constructor].
Qed.

Lemma checks_app config domain ps p w :
  checks config domain (ps ++ [p]) w
  = checks config domain ps w
    ++ [checkDomain config domain p (after config domain ps w)].
Proof.
  revert w. induction ps as [|q ps IH]; intros w; simpl; [done|].
  by rewrite IH.
Qed.

Lemma after_snoc config domain ps p w :
  after config domain (ps ++ [p]) w
  = world (checkDomain config domain p (after config domain ps w)).
Proof. unfold after. by rewrite foldl_app. Qed.

(** A configured domain stays configured. *)
Lemma after_configured config domain ps w state :
  healthState w !! domain = Some state ->
  exists state', healthState (after config domain ps w) !! domain = Some state'.
Proof.
  revert w state. induction ps as [|p ps IH]; intros w state Hstate; simpl.
  - by exists state.
  - destruct (checkDomain_CheckStep config domain p w state Hstate)
      as (state' & Hstate' & _).
    by apply (IH _ state').
Qed.

(** ** The classifier *)

(** C3.  For a request that resolved with a status code, the check fails
    with the message "HTTP <status>" exactly when the status is below 200
    or above 399; a status from 200 to 399 with a response time below
    [timeoutSeconds * 1000] and a body free of the PHP error marker
    reaches the success branch. *)
Theorem classify_status_range config p response :
  request p = inl response ->
  (classify config p = Some ("HTTP " +:+ pretty (statusCode response))
   <-> statusCode response < 200 \/ statusCode response > 399)
  /\ (200 <= statusCode response <= 399 ->
      respondedAt p - startTime p < timeoutSeconds config * 1000 ->
      includes (body response) "A PHP Error was encountered" = false ->
      classify config p = None).
Proof.
  intros Hreq. unfold classify. rewrite Hreq. split.
  - split.
    + intros H.
      destruct (statusCode response <? 200) eqn:Hlo; [lia|].
      destruct (400 <=? statusCode response) eqn:Hhi; [lia|].
      simpl in H. repeat case_match; discriminate.
    + intros H.
      assert ((statusCode response <? 200) || (400 <=? statusCode response)
              = true) as ->; [|done].
      apply orb_true_iff. lia.
  - intros Hcode Htime Hbody.
    assert ((statusCode response <? 200) || (400 <=? statusCode response)
            = false) as -> by (apply orb_false_iff; lia).
    assert ((timeoutSeconds config * 1000 <? respondedAt p - startTime p)
            = false) as -> by lia.
    by rewrite Hbody.
Qed.

Lemma classify_status_range_witness :
  let p := mkProbe 0 (inl (mkResponse 302 "moved")) 50 60 (fun _ => None) in
  (classify (mkConfig ["https://example.com"] 10) p = Some "HTTP 302"
   <-> 302 < 200 \/ 302 > 399)
  /\ (200 <= 302 <= 399 -> 50 - 0 < 10 * 1000 ->
      includes "moved" "A PHP Error was encountered" = false ->
      classify (mkConfig ["https://example.com"] 10) p = None).
Proof.
  exact (classify_status_range (mkConfig ["https://example.com"] 10)
           (mkProbe 0 (inl (mkResponse 302 "moved")) 50 60 (fun _ => None))
           (mkResponse 302 "moved") eq_refl).
Defined.

(** A failed check is recorded as unhealthy with the message as
    [lastError]. *)
Lemma checkDomain_records_reason config domain p w state message :
  healthState w !! domain = Some state ->
  classify config p = Some message ->
  exists state',
    healthState (world (checkDomain config domain p w)) !! domain = Some state'
    /\ status state' = unhealthy /\ lastError state' = Some message.
Proof.
  intros Hstate Hc.
  destruct (checkDomain_failing config domain p w state Hstate message Hc)
    as [H _].
  by eexists.
Qed.

(** ** Streaks *)

(** The two counters are not both positive. *)
Definition exclusive (state : State) : Prop :=
  (0 < consecutiveErrors state -> consecutiveSuccesses state = 0)
  /\ (0 < consecutiveSuccesses state -> consecutiveErrors state = 0).

Lemma CheckStep_exclusive config domain p state state' ns :
  CheckStep config domain p state state' ns -> exclusive state'.
Proof. destruct 1; split; simpl; intros; lia || done. Qed.

(** C5.  From a state with both counters at 0, after any sequence of
    checks of the domain, a positive [consecutiveErrors] comes with
    [consecutiveSuccesses = 0] and a positive [consecutiveSuccesses] with
    [consecutiveErrors = 0]. *)
Theorem counters_exclusive config domain ps w :
  healthState w !! domain = Some initialState ->
  exists state,
    healthState (after config domain ps w) !! domain = Some state
    /\ exclusive state.
Proof.
  intros Hinit.
  assert (exclusive initialState) as Hex by (split; simpl; lia).
  revert w Hinit Hex. generalize initialState as state.
  induction ps as [|p ps IH]; intros state w Hstate Hex; simpl.
  - by exists state.
  - destruct (checkDomain_CheckStep config domain p w state Hstate)
      as (state' & Hstate' & Hstep).
    apply (IH state'); [done|].
    by eapply CheckStep_exclusive.
Qed.

(** Sample inputs: a configuration with one domain, a response that
    passes every check, one that fails with a server error, and a webhook
    that takes every message. *)
Definition sampleConfig : Config := mkConfig ["https://example.com"] 10.

Definition sampleWorld : World := initialWorld sampleConfig (mkDisk true ∅).

Definition passingProbe (at_ : Z) : Probe :=
  mkProbe at_ (inl (mkResponse 200 "ok")) (at_ + 50) (at_ + 60)
    (fun _ => None).

Definition failingProbe (at_ : Z) : Probe :=
  mkProbe at_ (inl (mkResponse 500 "oops")) (at_ + 50) (at_ + 60)
    (fun _ => None).

Lemma counters_exclusive_witness :
  exists state,
    healthState
      (after sampleConfig "https://example.com"
         [failingProbe 0; failingProbe 60000; passingProbe 120000]
         sampleWorld) !! "https://example.com" = Some state
    /\ exclusive state.
Proof.
  apply (counters_exclusive sampleConfig "https://example.com"
           [failingProbe 0; failingProbe 60000; passingProbe 120000]
           sampleWorld).
  reflexivity.
Defined.

(** The notifications of one check against the counters it leaves:
    an alert exactly at one failure, a sustained alert exactly at five, a
    recovery exactly at ten successes, nothing at any other value, and
    never more than one message. *)
Definition ExactTriggers (domain : string) (state : State)
    (ns : list Notification) : Prop :=
  ((exists e, Alert domain e ∈ ns) <-> consecutiveErrors state = 1)
  /\ ((exists e, Sustained domain e ∈ ns) <-> consecutiveErrors state = 5)
  /\ (Recovered domain ∈ ns <-> consecutiveSuccesses state = 10)
  /\ (consecutiveErrors state <> 1 -> consecutiveErrors state <> 5 ->
      consecutiveSuccesses state <> 10 -> ns = [])
  /\ (length ns <= 1)%nat.

Lemma CheckStep_ExactTriggers config domain p state state' ns :
  slack p (Recovered domain) = None ->
  CheckStep config domain p state state' ns ->
  ExactTriggers domain state' ns.
Proof.
  intros Hslack Hstep. unfold ExactTriggers.
  destruct Hstep as [message Hc|Hc Hn|Hc Hn Hs|message Hc Hn Hs]; simpl.
  - destruct (consecutiveErrors state + 1 =? 1) eqn:E1;
      [|destruct (consecutiveErrors state + 1 =? 5) eqn:E5];
      repeat split; intros; simpl; try lia; try done;
      try (by eexists; apply list_elem_of_singleton);
      repeat match goal with
             | H : exists _, _ |- _ => destruct H
             | H : _ ∈ [_] |- _ => apply list_elem_of_singleton in H
             | H : _ ∈ [] |- _ => by apply not_elem_of_nil in H
             end; try discriminate; lia.
  - repeat split; intros; simpl; try lia; try done;
      repeat match goal with
             | H : exists _, _ |- _ => destruct H
             | H : _ ∈ [] |- _ => by apply not_elem_of_nil in H
             end.
  - repeat split; intros; simpl; try lia; try done;
      try (by apply list_elem_of_singleton);
      repeat match goal with
             | H : exists _, _ |- _ => destruct H
             | H : _ ∈ [_] |- _ => apply list_elem_of_singleton in H
             end; try discriminate.
  - congruence.
Qed.

(** While the webhook takes the recovery message: over any sequence of
    checks of one domain, each check hands over an alert exactly when it
    leaves [consecutiveErrors = 1], a sustained alert exactly when it
    leaves [consecutiveErrors = 5], a recovery exactly when it leaves
    [consecutiveSuccesses = 10], and nothing at any other counter
    value. *)
Theorem notifications_exact config domain ps w state :
  healthState w !! domain = Some state ->
  Forall (fun p => slack p (Recovered domain) = None) ps ->
  Forall (fun r => exists state',
            healthState (world r) !! domain = Some state'
            /\ ExactTriggers domain state' (sent r))
    (checks config domain ps w).
Proof.
  intros Hstate Hslack. revert w state Hstate.
  induction Hslack as [|p ps Hp _ IH]; intros w state Hstate; simpl.
  - constructor.
  - destruct (checkDomain_CheckStep config domain p w state Hstate)
      as (state' & Hstate' & Hstep).
    constructor.
    + exists state'. split; [done|].
      by eapply CheckStep_ExactTriggers.
    + by apply (IH _ state').
Qed.

Lemma notifications_exact_witness :
  Forall (fun r => exists state',
            healthState (world r) !! "https://example.com" = Some state'
            /\ ExactTriggers "https://example.com" state' (sent r))
    (checks sampleConfig "https://example.com"
       (map failingProbe [0; 60000; 120000; 180000; 240000; 300000]
        ++ map passingProbe [360000; 420000; 480000; 540000; 600000;
                             660000; 720000; 780000; 840000; 900000;
                             960000])
       sampleWorld).
Proof.
  apply (notifications_exact sampleConfig "https://example.com" _
           sampleWorld initialState).
  - reflexivity.
  - simpl. repeat constructor.
Defined.

(** Checks that pass and stay short of the tenth success in a row hand
    nothing to the webhook. *)
Lemma passing_run config domain ps w state :
  healthState w !! domain = Some state ->
  Forall (fun p => classify config p = None) ps ->
  consecutiveSuccesses state + Z.of_nat (length ps) < 10 ->
  Forall (fun r => sent r = []) (checks config domain ps w)
  /\ exists state',
       healthState (after config domain ps w) !! domain = Some state'
       /\ consecutiveSuccesses state'
          = consecutiveSuccesses state + Z.of_nat (length ps).
Proof.
  intros Hstate Hpass. revert w state Hstate.
  induction Hpass as [|p ps Hp _ IH]; intros w state Hstate Hlt.
  - split; [constructor|]. exists state. simpl. split; [done|lia].
  - cbn [length] in Hlt.
    destruct (checkDomain_passing config domain p w state Hstate Hp)
      as [Hstate' Hsent]; [lia|].
    destruct (IH _ _ Hstate') as (Hall & state'' & Hfinal & Hcount).
    { simpl. lia. }
    split.
    + simpl. by constructor.
    + exists state''. split; [done|].
      rewrite Hcount. cbn [length]. simpl. lia.
Qed.

(** C9.  A domain whose state is the initial one (status unknown, no
    failure ever recorded) and whose first ten checks all pass gets the
    recovery notification on the tenth check, and nothing before. *)
Theorem recovered_from_startup config domain ps w :
  healthState w !! domain = Some initialState ->
  length ps = 10%nat ->
  Forall (fun p => classify config p = None) ps ->
  exists rs r,
    checks config domain ps w = rs ++ [r]
    /\ Forall (fun r' => sent r' = []) rs
    /\ Recovered domain ∈ sent r.
Proof.
  intros Hinit Hlen Hpass.
  destruct ps as [|p0 ps0] using rev_ind; [done|]. clear IHps0.
  rewrite length_app in Hlen. simpl in Hlen.
  apply Forall_app in Hpass as [Hpass Hlast].
  inversion Hlast as [|? ? Hp0 _]; subst; clear Hlast.
  destruct (passing_run config domain ps0 w initialState Hinit Hpass)
    as (Hquiet & state & Hstate & Hcount).
  { simpl. lia. }
  simpl in Hcount.
  exists (checks config domain ps0 w),
         (checkDomain config domain p0 (after config domain ps0 w)).
  split; [apply checks_app|]. split; [done|].
  destruct (checkDomain_CheckStep config domain p0 _ state Hstate)
    as (state' & _ & Hstep).
  destruct Hstep as [message Hc|Hc Hn|Hc Hn Hs|message Hc Hn Hs];
    try congruence; try lia; apply list_elem_of_here.
Qed.

Lemma recovered_from_startup_witness :
  exists rs r,
    checks sampleConfig "https://example.com"
      (map passingProbe [0; 60000; 120000; 180000; 240000; 300000; 360000;
                         420000; 480000; 540000])
      sampleWorld = rs ++ [r]
    /\ Forall (fun r' => sent r' = []) rs
    /\ Recovered "https://example.com" ∈ sent r.
Proof.
  apply (recovered_from_startup sampleConfig "https://example.com").
  - reflexivity.
  - reflexivity.
  - simpl. repeat constructor.
Defined.

(** ** The availability grid *)

(** Rounding the exact quotient is an integer division after adding half
    a minute. *)
Lemma Math_round_rawMinutes now entryTime :
  Math_round (rawMinutes now entryTime)
  = (entryTime - (now - minutesInDay * 60 * 1000) + 30 * 1000) / (60 * 1000).
Proof.
  unfold Math_round, rawMinutes.
  generalize (entryTime - (now - minutesInDay * 60 * 1000)). intros n.
  cbv [Qdiv Qmult Qinv Qplus inject_Z Qfloor Qnum Qden].
  change (60 * 1000) with 60000. change (30 * 1000) with 30000.
  cbv iota beta.
  change (Z.pos (1 * 60000)) with 60000.
  change (Z.pos (1 * 60000 * 2)) with (60000 * 2).
  replace (n * 1 * 2 + 1 * 60000) with ((n + 30000) * 2) by lia.
  apply Z.div_mul_cancel_r; lia.
Qed.

Lemma minutesFromStart_range now entryTime :
  0 <= minutesFromStart now entryTime <= minutesInDay - 1.
Proof. unfold minutesFromStart, minutesInDay. lia. Qed.

Lemma length_emptyGrid now : length (emptyGrid now) = 1440%nat.
Proof. unfold emptyGrid. by rewrite length_fmap, length_seqZ. Qed.

Lemma length_fillEntry now grid entry :
  length (fillEntry now grid entry) = length grid.
Proof.
  unfold fillEntry. repeat case_match; try done. apply length_alter.
Qed.

Lemma length_historyGrid now history :
  length (historyGrid now history) = 1440%nat.
Proof.
  unfold historyGrid. induction history as [|entry history IH] using rev_ind.
  - apply length_emptyGrid.
  - by rewrite foldl_app; simpl; rewrite length_fillEntry.
Qed.

(** The statuses after one entry: the entry's status goes to its slot,
    an entry without a valid date changes nothing. *)
Lemma slotStatuses_fillEntry now grid entry :
  slotStatuses (fillEntry now grid entry)
  = match Date_getTime (Entry.timestamp entry) with
    | Some entryTime =>
        alter (fun _ => Entry.status entry)
          (Z.to_nat (minutesFromStart now entryTime)) (slotStatuses grid)
    | None => slotStatuses grid
    end.
Proof.
  unfold fillEntry. destruct (Date_getTime _) as [entryTime|]; [|done].
  pose proof (minutesFromStart_range now entryTime) as Hrange.
  unfold minutesInDay in *.
  assert ((0 <=? minutesFromStart now entryTime)
          && (minutesFromStart now entryTime <? 24 * 60) = true) as ->.
  { apply andb_true_iff. lia. }
  unfold slotStatuses. apply list_fmap_alter.
  by apply Forall_true.
Qed.

(** The last entry of a history owns its slot. *)
Lemma historyGrid_last_write now history entry entryTime :
  Date_getTime (Entry.timestamp entry) = Some entryTime ->
  slotStatuses (historyGrid now (history ++ [entry]))
    !! Z.to_nat (minutesFromStart now entryTime)
  = Some (Entry.status entry).
Proof.
  intros Hdate. unfold historyGrid. rewrite foldl_app. simpl.
  rewrite slotStatuses_fillEntry, Hdate, list_lookup_alter_eq.
  pose proof (minutesFromStart_range now entryTime) as Hrange.
  unfold minutesInDay in Hrange.
  destruct (slotStatuses (foldl (fillEntry now) (emptyGrid now) history)
              !! Z.to_nat (minutesFromStart now entryTime)) eqn:Hslot; [done|].
  apply lookup_ge_None in Hslot.
  unfold slotStatuses in Hslot. rewrite length_fmap in Hslot.
  change (foldl (fillEntry now) (emptyGrid now) history)
    with (historyGrid now history) in Hslot.
  rewrite length_historyGrid in Hslot. lia.
Qed.

(** C2.  An entry dated exactly [now - 24h] is written to slot 0, an
    entry dated [now] to slot 1439, and the slot of any entry with a
    valid date lies between 0 and 1439 and receives the entry's
    status. *)
Theorem grid_boundaries now history entry entryTime :
  Date_getTime (Entry.timestamp entry) = Some entryTime ->
  minutesFromStart now (now - minutesInDay * 60 * 1000) = 0
  /\ minutesFromStart now now = minutesInDay - 1
  /\ 0 <= minutesFromStart now entryTime <= minutesInDay - 1
  /\ slotStatuses (historyGrid now (history ++ [entry]))
       !! Z.to_nat (minutesFromStart now entryTime)
     = Some (Entry.status entry).
Proof.
  intros Hdate. repeat split.
  - unfold minutesFromStart. rewrite Math_round_rawMinutes.
    replace (now - minutesInDay * 60 * 1000 - (now - minutesInDay * 60 * 1000)
             + 30 * 1000) with 30000 by lia.
    reflexivity.
  - unfold minutesFromStart. rewrite Math_round_rawMinutes.
    replace (now - (now - minutesInDay * 60 * 1000) + 30 * 1000)
      with 86430000 by (unfold minutesInDay; lia).
    reflexivity.
  - apply minutesFromStart_range.
  - apply minutesFromStart_range.
  - by apply historyGrid_last_write.
Qed.

Lemma grid_boundaries_witness :
  let now := 1700000000000 in
  let entry := Entry.mk (JIso (now - 86400000)) (JStr "unhealthy") in
  minutesFromStart now (now - minutesInDay * 60 * 1000) = 0
  /\ minutesFromStart now now = minutesInDay - 1
  /\ 0 <= minutesFromStart now (now - 86400000) <= minutesInDay - 1
  /\ slotStatuses
       (historyGrid now ([Entry.mk (JIso (now - 3600000)) (JStr "healthy")]
                         ++ [entry]))
       !! Z.to_nat (minutesFromStart now (now - 86400000))
     = Some (JStr "unhealthy").
Proof.
  exact (grid_boundaries 1700000000000
           [Entry.mk (JIso (1700000000000 - 3600000)) (JStr "healthy")]
           (Entry.mk (JIso (1700000000000 - 86400000)) (JStr "unhealthy"))
           (1700000000000 - 86400000) eq_refl).
Defined.

(** How far an instant lies past the half-minute mark at which
    [Math.round] moves to the next slot, for the window that ends at
    [now]. *)
Definition offsetInSlot (now entryTime : Z) : Z :=
  (entryTime - (now - minutesInDay * 60 * 1000) + 30 * 1000) mod (60 * 1000).

(** The entry is at least as far from both neighbouring marks as the two
    clock readings are apart. *)
Definition clearOfBoundary (now now' : Z) (entry : Entry.t) : Prop :=
  match Date_getTime (Entry.timestamp entry) with
  | Some entryTime =>
      Z.abs (now' - now) <= offsetInSlot now entryTime
      < 60 * 1000 - Z.abs (now' - now)
  | None => True
  end.

Lemma minutesFromStart_steady now now' entryTime :
  Z.abs (now' - now) <= offsetInSlot now entryTime
  < 60 * 1000 - Z.abs (now' - now) ->
  minutesFromStart now' entryTime = minutesFromStart now entryTime.
Proof.
  unfold offsetInSlot, minutesFromStart. rewrite !Math_round_rawMinutes.
  set (n := entryTime - (now - minutesInDay * 60 * 1000) + 30 * 1000).
  intros Hclear.
  replace (entryTime - (now' - minutesInDay * 60 * 1000) + 30 * 1000)
    with (n - (now' - now)) by (unfold n; lia).
  f_equal. f_equal.
  pose proof (Z.div_mod n (60 * 1000) ltac:(lia)) as Hn.
  symmetry.
  apply (Z.div_unique _ _ _ (n mod (60 * 1000) - (now' - now))); lia.
Qed.

Lemma slotStatuses_foldl_steady now now' history grid grid' :
  slotStatuses grid' = slotStatuses grid ->
  Forall (clearOfBoundary now now') history ->
  slotStatuses (foldl (fillEntry now') grid' history)
  = slotStatuses (foldl (fillEntry now) grid history).
Proof.
  intros Hgrid Hclear. revert grid grid' Hgrid.
  induction Hclear as [|entry history Hentry _ IH]; intros grid grid' Hgrid;
    simpl; [done|].
  apply IH. rewrite !slotStatuses_fillEntry, Hgrid.
  unfold clearOfBoundary in Hentry.
  destruct (Date_getTime _) as [entryTime|]; [|done].
  by rewrite (minutesFromStart_steady now now' entryTime Hentry).
Qed.

(** C1, as the code has it.  Two clock readings less than half a minute
    apart give the same slot statuses for every history whose entries
    are each at least as far from the nearest half-minute mark as the
    readings are apart. *)
Theorem grid_steady now now' history :
  Z.abs (now' - now) < 60 * 1000 / 2 ->
  Forall (clearOfBoundary now now') history ->
  slotStatuses (historyGrid now' history)
  = slotStatuses (historyGrid now history).
Proof.
  intros _ Hclear. unfold historyGrid.
  apply slotStatuses_foldl_steady; [|done].
  vm_compute. reflexivity.
Qed.

Lemma grid_steady_witness :
  let now := 1700000000000 in
  let history := [Entry.mk (JIso (now - 120000)) (JStr "healthy");
                  Entry.mk (JIso (now - 55000)) (JStr "unhealthy")] in
  slotStatuses (historyGrid (now + 20000) history)
  = slotStatuses (historyGrid now history).
Proof.
  apply (grid_steady 1700000000000 (1700000000000 + 20000)).
  - vm_compute. reflexivity.
  - constructor; [vm_compute; split; [discriminate | reflexivity]|].
    constructor; [vm_compute; split; [discriminate | reflexivity]|].
    constructor.
Defined.

(** C1 as stated fails: an entry 90 seconds old sits on a half-minute
    mark, and one millisecond on the clock moves it from slot 1439 to
    slot 1438. *)
Lemma grid_jitter_counterexample :
  ~ (forall history now now',
       Z.abs (now' - now) < 60 * 1000 / 2 ->
       slotStatuses (historyGrid now' history)
       = slotStatuses (historyGrid now history)).
Proof.
  intros H.
  specialize (H [Entry.mk (JIso (1700000000000 - 90000)) (JStr "healthy")]
                1700000000000 1700000000001 ltac:(vm_compute; reflexivity)).
  apply (f_equal (fun l => l !! 1439%nat)) in H.
  vm_compute in H. discriminate.
Qed.

(** ** Stored histories *)

Lemma filterElems_objects keep (entries : list Entry.t) :
  filterElems keep (map ElemObj entries) = Some (List.filter keep entries).
Proof.
  induction entries as [|entry entries IH]; simpl; [done|].
  by rewrite IH.
Qed.

Lemma filterElems_null keep elems :
  ElemNull ∈ elems -> filterElems keep elems = None.
Proof.
  induction elems as [|[|entry] elems IH]; intros Hin; simpl.
  - by apply not_elem_of_nil in Hin.
  - done.
  - apply elem_of_cons in Hin as [Hin|Hin]; [done|].
    by rewrite IH.
Qed.

Lemma filterElems_kept keep elems history :
  filterElems keep elems = Some history ->
  Forall (fun entry => keep entry = true) history.
Proof.
  revert history.
  induction elems as [|[|entry] elems IH]; intros history; simpl.
  - intros [= <-]. constructor.
  - done.
  - destruct (filterElems keep elems) as [kept|]; [|done].
    intros [= <-]. specialize (IH kept eq_refl).
    destruct (keep entry) eqn:Hkeep; [by constructor | done].
Qed.

Lemma validRecent_withinLastMonth now entry :
  validRecent now entry = true -> withinLastMonth now entry = true.
Proof.
  unfold validRecent, withinLastMonth. intros H.
  by apply andb_true_iff in H as [_ H].
Qed.

Lemma validRecent_truthy now entry :
  validRecent now entry = true ->
  truthy (Entry.timestamp entry) = true /\ truthy (Entry.status entry) = true.
Proof.
  unfold validRecent. intros H.
  apply andb_true_iff in H as [H _].
  by apply andb_true_iff in H.
Qed.

(** An entry inside the window at a later reading of the clock was
    inside it at an earlier one. *)
Lemma withinLastMonth_earlier now now' entry :
  now <= now' ->
  withinLastMonth now' entry = true -> withinLastMonth now entry = true.
Proof.
  unfold withinLastMonth, Date_ge. intros Hle.
  destruct (Date_getTime _); [lia | done].
Qed.

Lemma Index_loaded_kept domain now d :
  Forall (fun entry => validRecent now entry = true)
    (Index.loadDomainHistory domain now d).
Proof.
  unfold Index.loadDomainHistory.
  destruct (files d !! _) as [[| | |elems]|]; try constructor.
  destruct (filterElems _ elems) eqn:Hf; [|constructor].
  by eapply filterElems_kept.
Qed.

Lemma Persistence_loaded_kept domain now d :
  Forall (fun entry => withinLastMonth now entry = true)
    (Persistence.loadDomainHistory domain now d).
Proof.
  unfold Persistence.loadDomainHistory.
  destruct (files d !! _) as [[| | |elems]|]; try constructor.
  destruct (filterElems _ elems) eqn:Hf; [|constructor].
  by eapply filterElems_kept.
Qed.

(** A record from which no history can be taken: no file, a file that
    cannot be read, text that is not JSON, JSON that is not an array, or
    an array with a [null] in it. *)
Definition unusable (record : option FileContent) : Prop :=
  match record with
  | None | Some Unreadable | Some Malformed | Some NotArray => True
  | Some (JsonArray elems) => ElemNull ∈ elems
  end.

(** C8.  Both [loadDomainHistory] functions return the empty history
    for a record that is missing, unreadable or unparseable (they return
    a list in every case: nothing is thrown); whatever they return lies
    within the last 30 days, and from a record that holds a history they
    return that history filtered. *)
Theorem load_degrades_to_empty domain now d :
  (unusable (files d !! Index.getDomainFileName domain) ->
   Index.loadDomainHistory domain now d = [])
  /\ (unusable (files d !! Persistence.getDomainFilePath domain) ->
      Persistence.loadDomainHistory domain now d = [])
  /\ Forall (fun entry => withinLastMonth now entry = true)
       (Index.loadDomainHistory domain now d)
  /\ Forall (fun entry => withinLastMonth now entry = true)
       (Persistence.loadDomainHistory domain now d)
  /\ (forall history,
        files d !! Index.getDomainFileName domain = Some (stored history) ->
        Index.loadDomainHistory domain now d
        = List.filter (validRecent now) history
        /\ Persistence.loadDomainHistory domain now d
           = keepLastMonth now history).
Proof.
  split_and!.
  - unfold unusable, Index.loadDomainHistory.
    destruct (files d !! _) as [[| | |elems]|]; try done.
    intros Hnull. by rewrite (filterElems_null _ _ Hnull).
  - unfold unusable, Persistence.loadDomainHistory.
    destruct (files d !! _) as [[| | |elems]|]; try done.
    intros Hnull. by rewrite (filterElems_null _ _ Hnull).
  - eapply Forall_impl; [apply Index_loaded_kept|].
    apply validRecent_withinLastMonth.
  - apply Persistence_loaded_kept.
  - intros history Hfile. split.
    + unfold Index.loadDomainHistory. rewrite Hfile. unfold stored.
      by rewrite filterElems_objects.
    + unfold Persistence.loadDomainHistory.
      change (Persistence.getDomainFilePath domain)
        with (Index.getDomainFileName domain).
      rewrite Hfile. unfold stored. by rewrite filterElems_objects.
Qed.

Definition sampleNow : Z := 1700000000000.

(** A history with a fresh entry, one 40 days old, and one without a
    status. *)
Definition sampleHistory : list Entry.t :=
  [Entry.mk (JIso (sampleNow - 40 * 24 * 60 * 60 * 1000)) (JStr "healthy");
   Entry.mk (JIso (sampleNow - 3600000)) JUndefined;
   Entry.mk (JIso (sampleNow - 60000)) (JStr "unhealthy")].

Lemma load_degrades_to_empty_witness :
  Index.loadDomainHistory "https://example.com" sampleNow
    (mkDisk true {["https___example.com.json" := Malformed]}) = []
  /\ Persistence.loadDomainHistory "https://example.com" sampleNow
       (mkDisk true {["https___example.com.json" :=
                        JsonArray [ElemNull]]}) = []
  /\ Index.loadDomainHistory "https://example.com" sampleNow
       (mkDisk true {["https___example.com.json" := stored sampleHistory]})
     = List.filter (validRecent sampleNow) sampleHistory.
Proof.
  split; [|split].
  - apply (proj1 (load_degrades_to_empty "https://example.com" sampleNow
                    (mkDisk true {["https___example.com.json" := Malformed]}))).
    vm_compute. exact I.
  - apply (proj1 (proj2 (load_degrades_to_empty "https://example.com"
                           sampleNow
                           (mkDisk true {["https___example.com.json" :=
                                            JsonArray [ElemNull]]})))).
    apply list_elem_of_here.
  - apply (proj2 (proj2 (proj2 (proj2
             (load_degrades_to_empty "https://example.com" sampleNow
                (mkDisk true {["https___example.com.json" :=
                                 stored sampleHistory]})))))).
    reflexivity.
Defined.

(** C10.  Every entry [loadDomainHistory] of index.js returns has a
    truthy [timestamp] and a truthy [status]; an entry that lacks either
    is not returned. *)
Theorem loaded_entries_valid domain now d :
  Forall (fun entry => truthy (Entry.timestamp entry) = true
                       /\ truthy (Entry.status entry) = true)
    (Index.loadDomainHistory domain now d)
  /\ (forall entry,
        truthy (Entry.timestamp entry) && truthy (Entry.status entry) = false ->
        entry ∉ Index.loadDomainHistory domain now d).
Proof.
  assert (Forall (fun entry => truthy (Entry.timestamp entry) = true
                               /\ truthy (Entry.status entry) = true)
            (Index.loadDomainHistory domain now d)) as Hall.
  { eapply Forall_impl; [apply Index_loaded_kept|].
    apply validRecent_truthy. }
  split; [done|].
  intros entry Hfalsy Hin.
  rewrite Forall_forall in Hall.
  destruct (Hall entry Hin) as [Hts Hst].
  rewrite Hts, Hst in Hfalsy. discriminate.
Qed.

Lemma loaded_entries_valid_witness :
  Entry.mk (JIso (sampleNow - 3600000)) JUndefined
  ∉ Index.loadDomainHistory "https://example.com" sampleNow
      (mkDisk true {["https___example.com.json" := stored sampleHistory]}).
Proof.
  apply (proj2 (loaded_entries_valid "https://example.com" sampleNow
                  (mkDisk true {["https___example.com.json" :=
                                   stored sampleHistory]}))).
  reflexivity.
Defined.

Lemma filter_validRecent now history :
  Forall (fun entry => truthy (Entry.timestamp entry) = true
                       /\ truthy (Entry.status entry) = true) history ->
  List.filter (validRecent now) history = keepLastMonth now history.
Proof.
  unfold keepLastMonth.
  induction 1 as [|entry history [Hts Hst] _ IH]; simpl; [done|].
  unfold validRecent at 1, withinLastMonth at 1.
  rewrite Hts, Hst, IH. done.
Qed.

Lemma keepLastMonth_twice now now' history :
  now <= now' ->
  keepLastMonth now' (keepLastMonth now history) = keepLastMonth now' history.
Proof.
  intros Hle. unfold keepLastMonth.
  induction history as [|entry history IH]; simpl; [done|].
  destruct (withinLastMonth now entry) eqn:Hnow; simpl; rewrite IH.
  - done.
  - destruct (withinLastMonth now' entry) eqn:Hlater; [|done].
    apply (withinLastMonth_earlier now now' entry Hle) in Hlater.
    congruence.
Qed.

(** C7.  With a writable data directory and a history whose entries all
    carry a timestamp and a status, saving and then loading (no earlier
    than the save) returns the history filtered to the 30 days before
    the load, in index.js and in persistence.js. *)
Theorem save_load_roundtrip domain history nowSave nowLoad d :
  writable d = true ->
  Forall (fun entry => truthy (Entry.timestamp entry) = true
                       /\ truthy (Entry.status entry) = true) history ->
  nowSave <= nowLoad ->
  Index.loadDomainHistory domain nowLoad
    (Index.saveDomainHistory domain history d)
  = keepLastMonth nowLoad history
  /\ Persistence.loadDomainHistory domain nowLoad
       (Persistence.saveDomainHistory domain history nowSave d)
     = keepLastMonth nowLoad history.
Proof.
  intros Hw Hcomplete Hle. split.
  - unfold Index.loadDomainHistory, Index.saveDomainHistory.
    rewrite Hw. simpl. rewrite lookup_insert_eq.
    unfold stored. rewrite filterElems_objects.
    by apply filter_validRecent.
  - unfold Persistence.loadDomainHistory, Persistence.saveDomainHistory.
    rewrite Hw. simpl. rewrite lookup_insert_eq.
    unfold stored. rewrite filterElems_objects.
    by apply (keepLastMonth_twice nowSave nowLoad).
Qed.

Definition completeHistory : list Entry.t :=
  [Entry.mk (JIso (sampleNow - 40 * 24 * 60 * 60 * 1000)) (JStr "healthy");
   Entry.mk (JIso (sampleNow - 3600000)) (JStr "healthy");
   Entry.mk (JIso (sampleNow - 60000)) (JStr "unhealthy")].

Lemma save_load_roundtrip_witness :
  Index.loadDomainHistory "https://example.com" (sampleNow + 60000)
    (Index.saveDomainHistory "https://example.com" completeHistory
       (mkDisk true ∅))
  = keepLastMonth (sampleNow + 60000) completeHistory
  /\ Persistence.loadDomainHistory "https://example.com" (sampleNow + 60000)
       (Persistence.saveDomainHistory "https://example.com" completeHistory
          sampleNow (mkDisk true ∅))
     = keepLastMonth (sampleNow + 60000) completeHistory.
Proof.
  apply (save_load_roundtrip "https://example.com" completeHistory
           sampleNow (sampleNow + 60000) (mkDisk true ∅)).
  - reflexivity.
  - repeat constructor.
  - vm_compute. discriminate.
Defined.

(** ** Appending *)

Lemma addToHistory_history domain status now w :
  healthHistory (addToHistory domain status now w) !! domain
  = Some (keepLastMonth now
            (default [] (healthHistory w !! domain)
             ++ [Entry.mk (JIso now) (JStr status)])).
Proof. unfold addToHistory. simpl. apply lookup_insert_eq. Qed.

Lemma withinLastMonth_new now status :
  withinLastMonth now (Entry.mk (JIso now) status) = true.
Proof.
  unfold withinLastMonth, Date_ge, oneMonth.
  cbn [Date_getTime Entry.timestamp]. apply Z.leb_le. lia.
Qed.

Lemma keepLastMonth_snoc_new now history status :
  keepLastMonth now (history ++ [Entry.mk (JIso now) (JStr status)])
  = keepLastMonth now history ++ [Entry.mk (JIso now) (JStr status)].
Proof.
  unfold keepLastMonth. rewrite List.filter_app.
  cbn [List.filter]. by rewrite withinLastMonth_new.
Qed.

(** [addToHistory] trims in the call that appends: right after it, an
    entry that was older than 30 days at that moment is in neither the
    in-memory history nor the record just written, the entry the call
    stamped with the current time is the last one, and no later load
    returns the old entry. *)
Theorem append_trims_at_once domain status now w entry :
  withinLastMonth now entry = false ->
  exists history',
    healthHistory (addToHistory domain status now w) !! domain
    = Some history'
    /\ (entry ∉ history')
    /\ last history' = Some (Entry.mk (JIso now) (JStr status))
    /\ (writable (disk w) = true ->
        files (disk (addToHistory domain status now w))
          !! getDomainFileName domain = Some (stored history'))
    /\ (forall now' d, now <= now' ->
          entry ∉ Index.loadDomainHistory domain now' d).
Proof.
  intros Hold. eexists. split; [apply addToHistory_history|].
  repeat split.
  - intros Hin. apply list_elem_of_In, List.filter_In in Hin as [_ Hin].
    congruence.
  - rewrite keepLastMonth_snoc_new. apply last_snoc.
  - intros Hw. unfold addToHistory, Index.saveDomainHistory. simpl.
    rewrite Hw. simpl. apply lookup_insert_eq.
  - intros now' d Hle Hin.
    pose proof (Index_loaded_kept domain now' d) as Hall.
    rewrite Forall_forall in Hall.
    apply Hall, validRecent_withinLastMonth in Hin.
    apply (withinLastMonth_earlier now now' entry Hle) in Hin.
    congruence.
Qed.

(** A world in which the in-memory history of the domain ends with an
    entry 40 days old. *)
Definition staleEntry : Entry.t :=
  Entry.mk (JIso (sampleNow - 40 * 24 * 60 * 60 * 1000)) (JStr "healthy").

Definition staleWorld : World :=
  {| healthState := {["https://example.com" := initialState]};
     healthHistory :=
       {["https://example.com" :=
           [Entry.mk (JIso (sampleNow - 60000)) (JStr "healthy"); staleEntry]]};
     disk := mkDisk true ∅ |}.

Lemma append_trims_at_once_witness :
  exists history',
    healthHistory
      (addToHistory "https://example.com" "healthy" sampleNow staleWorld)
      !! "https://example.com" = Some history'
    /\ (staleEntry ∉ history')
    /\ last history' = Some (Entry.mk (JIso sampleNow) (JStr "healthy"))
    /\ (writable (disk staleWorld) = true ->
        files (disk (addToHistory "https://example.com" "healthy" sampleNow
                       staleWorld))
          !! getDomainFileName "https://example.com" = Some (stored history'))
    /\ (forall now' d, sampleNow <= now' ->
          staleEntry ∉ Index.loadDomainHistory "https://example.com" now' d).
Proof.
  apply (append_trims_at_once "https://example.com" "healthy" sampleNow
           staleWorld staleEntry).
  reflexivity.
Defined.

(** ** Further facts *)

(** Within an unbroken run of failing checks the alert goes out on the
    check that makes the first failure and the sustained alert on the
    one that makes the fifth, each once. *)
Lemma failing_streak config domain ps w state :
  healthState w !! domain = Some state ->
  Forall (fun p => is_Some (classify config p)) ps ->
  forall (i : nat) r,
    checks config domain ps w !! i = Some r ->
    ((exists e, Alert domain e ∈ sent r)
     <-> consecutiveErrors state + Z.of_nat i = 0)
    /\ ((exists e, Sustained domain e ∈ sent r)
        <-> consecutiveErrors state + Z.of_nat i = 4)
    /\ (Recovered domain ∉ sent r).
Proof.
  intros Hstate Hfail. revert w state Hstate.
  induction Hfail as [|p ps [message Hp] _ IH]; intros w state Hstate i r Hr.
  - done.
  - destruct (checkDomain_failing config domain p w state Hstate message Hp)
      as [Hstate' Hsent].
    destruct i as [|i]; simpl in Hr.
    + injection Hr as <-. rewrite Hsent.
      destruct (consecutiveErrors state + 1 =? 1) eqn:E1;
        [|destruct (consecutiveErrors state + 1 =? 5) eqn:E5];
        repeat split; intros;
        repeat match goal with
               | H : exists _, _ |- _ => destruct H
               | H : _ ∈ [_] |- _ => apply list_elem_of_singleton in H
               | H : _ ∈ [] |- _ => by apply not_elem_of_nil in H
               end;
        try discriminate; try lia;
        try (by eexists; apply list_elem_of_singleton);
        try (intros Hin; apply list_elem_of_singleton in Hin; discriminate);
        try apply not_elem_of_nil.
    + destruct (IH _ _ Hstate' i r Hr) as (Ha & Hs & Hr').
      simpl in Ha, Hs. repeat split; try tauto; intros.
      * apply Ha in H. lia.
      * apply Ha. lia.
      * apply Hs in H. lia.
      * apply Hs. lia.
Qed.

(** The earlier monitor turns a redirect down, the current one takes
    it. *)
Lemma Legacy_rejects_redirect :
  let p := mkProbe 0 (inl (mkResponse 301 "moved")) 50 60 (fun _ => None) in
  Legacy.classify p = Some "HTTP 301"
  /\ classify sampleConfig p = None.
Proof. split; reflexivity. Qed.

(** What is kept by a trim has a valid date, so the entries of an
    in-memory history all reach the grid. *)
Lemma withinLastMonth_valid_date now entry :
  withinLastMonth now entry = true ->
  is_Some (Date_getTime (Entry.timestamp entry)).
Proof.
  unfold withinLastMonth, Date_ge.
  destruct (Date_getTime _); [by eexists | done].
Qed.

Lemma addToHistory_valid_dates domain status now w :
  exists history',
    healthHistory (addToHistory domain status now w) !! domain = Some history'
    /\ Forall (fun entry => is_Some (Date_getTime (Entry.timestamp entry)))
         history'.
Proof.
  eexists. split; [apply addToHistory_history|].
  apply Forall_forall. intros entry Hin.
  apply list_elem_of_In, List.filter_In in Hin as [_ Hin].
  by apply (withinLastMonth_valid_date now).
Qed.

Lemma loadDomainHistory_valid_dates domain now d :
  Forall (fun entry => is_Some (Date_getTime (Entry.timestamp entry)))
    (Index.loadDomainHistory domain now d).
Proof.
  eapply Forall_impl; [apply Index_loaded_kept|].
  intros entry Hkept.
  by apply (withinLastMonth_valid_date now), validRecent_withinLastMonth.
Qed.

(** An entry without a valid date is passed over by the grid. *)
Lemma fillEntry_invalid_date now grid entry :
  Date_getTime (Entry.timestamp entry) = None ->
  fillEntry now grid entry = grid.
Proof. unfold fillEntry. by intros ->. Qed.

(** persistence.js keeps an entry that has no status; index.js drops
    it. *)
Lemma Persistence_keeps_statusless :
  let d := mkDisk true {["https___example.com.json" := stored sampleHistory]} in
  Entry.mk (JIso (sampleNow - 3600000)) JUndefined
  ∈ Persistence.loadDomainHistory "https://example.com" sampleNow d.
Proof. vm_compute. apply list_elem_of_here. Qed.

(** A directory that cannot be written: the save is dropped and what was
    stored before is what a load finds. *)
Lemma save_unwritable domain history d :
  writable d = false -> Index.saveDomainHistory domain history d = d.
Proof. unfold Index.saveDomainHistory. by intros ->. Qed.

(** The triggers of one check whatever the webhook answers: the alerts
    follow the counter the check leaves, the recovery message goes out
    exactly when the success branch raises its counter to 10. *)
Lemma triggers_any_webhook config domain p w state :
  healthState w !! domain = Some state ->
  exists state',
    healthState (world (checkDomain config domain p w)) !! domain = Some state'
    /\ ((exists e, Alert domain e ∈ sent (checkDomain config domain p w))
        <-> consecutiveErrors state' = 1)
    /\ ((exists e, Sustained domain e ∈ sent (checkDomain config domain p w))
        <-> consecutiveErrors state' = 5)
    /\ (Recovered domain ∈ sent (checkDomain config domain p w)
        <-> classify config p = None /\ consecutiveSuccesses state + 1 = 10).
Proof.
  intros Hstate.
  destruct (checkDomain_CheckStep config domain p w state Hstate)
    as (state' & Hstate' & Hstep).
  exists state'. split; [done|].
  destruct Hstep as [message Hc|Hc Hn|Hc Hn Hs|message Hc Hn Hs]; simpl.
  - destruct (consecutiveErrors state + 1 =? 1) eqn:E1;
      [|destruct (consecutiveErrors state + 1 =? 5) eqn:E5];
      rewrite ?list_elem_of_singleton;
      setoid_rewrite list_elem_of_singleton || setoid_rewrite elem_of_nil;
      (split_and!; split; [intros [e He]|intros He|intros [e He]|intros He
                          |intros He|intros He]);
      try discriminate; try lia; try done; try (by eexists);
      try (by apply elem_of_nil in He); try (by destruct He; congruence).
  - setoid_rewrite elem_of_nil.
    split_and!; split; try intros [e He]; try intros He; try done; lia.
  - setoid_rewrite list_elem_of_singleton.
    split_and!; split; try intros [e He]; try intros He;
      try discriminate; try done; lia.
  - setoid_rewrite elem_of_cons. setoid_rewrite list_elem_of_singleton.
    split_and!; split; try intros [e He]; try intros He; try done; try lia.
    + by exists message; right.
    + destruct He as [He|He]; discriminate.
    + by left.
Qed.

(** * More of the code *)

(** ** File names *)

(** The characters a file name is made of. *)
Definition fileNameChar (c : ascii) : bool :=
  let n := nat_of_ascii c in
  ((97 <=? n) && (n <=? 122) || (65 <=? n) && (n <=? 90)
   || (48 <=? n) && (n <=? 57) || (n =? 46) || (n =? 45) || (n =? 95))%nat.

Lemma fileNameChar_safeChar c : fileNameChar (safeChar c) = true.
Proof.
  unfold safeChar, fileNameChar.
  destruct ((97 <=? nat_of_ascii c) && (nat_of_ascii c <=? 122)
            || (65 <=? nat_of_ascii c) && (nat_of_ascii c <=? 90)
            || (48 <=? nat_of_ascii c) && (nat_of_ascii c <=? 57)
            || (nat_of_ascii c =? 46) || (nat_of_ascii c =? 45))%nat eqn:E.
  - cbv zeta. by rewrite E.
  - reflexivity.
Qed.

Lemma safeChar_idempotent c : safeChar (safeChar c) = safeChar c.
Proof.
  assert (safeChar c = c \/ safeChar c = "_"%char) as [H|H].
  { unfold safeChar. cbv zeta. case_match; auto. }
  - by rewrite !H.
  - rewrite !H. reflexivity.
Qed.

Lemma sanitize_idempotent domain : sanitize (sanitize domain) = sanitize domain.
Proof.
  induction domain as [|c domain IH]; simpl; [done|].
  by rewrite safeChar_idempotent, IH.
Qed.

Lemma length_sanitize domain :
  String.length (sanitize domain) = String.length domain.
Proof. induction domain as [|c domain IH]; simpl; [done | by rewrite IH]. Qed.

Lemma length_append_string s t :
  String.length (s +:+ t) = (String.length s + String.length t)%nat.
Proof. induction s as [|c s IH]; simpl; [done | by rewrite IH]. Qed.

Lemma append_inv_tail s1 s2 t : s1 +:+ t = s2 +:+ t -> s1 = s2.
Proof.
  revert s2. induction s1 as [|c s1 IH]; intros [|c' s2] H.
  - done.
  - apply (f_equal String.length) in H.
    rewrite !length_append_string in H. simpl in H. exfalso. lia.
  - apply (f_equal String.length) in H.
    rewrite !length_append_string in H. simpl in H. exfalso. lia.
  - injection H as -> H. by rewrite (IH s2 H).
Qed.

Lemma getDomainFileName_eq d1 d2 :
  getDomainFileName d1 = getDomainFileName d2 <-> sanitize d1 = sanitize d2.
Proof.
  unfold getDomainFileName. split.
  - apply append_inv_tail.
  - by intros ->.
Qed.

(** X1.  A file name is made of letters, digits, dots, hyphens and
    underscores only, whatever the domain: no path separator gets into
    it, and it is five characters longer than the domain. *)
Theorem getDomainFileName_chars domain :
  Forall (fun c => fileNameChar c = true)
    (list_ascii_of_string (getDomainFileName domain))
  /\ String.length (getDomainFileName domain)
     = (String.length domain + 5)%nat.
Proof.
  unfold getDomainFileName. split.
  - induction domain as [|c domain IH]; simpl.
    + repeat constructor.
    + constructor; [apply fileNameChar_safeChar | done].
  - by rewrite length_append_string, length_sanitize.
Qed.

(** X2.  Domains that differ only in characters outside
    [[a-zA-Z0-9.-]] share one file: what is saved for one is what a load
    of the other reads.  A domain and its own sanitised form are such a
    pair. *)
Theorem domains_share_record d1 d2 history now d :
  sanitize d1 = sanitize d2 ->
  writable d = true ->
  Index.loadDomainHistory d2 now (Index.saveDomainHistory d1 history d)
  = List.filter (validRecent now) history
  /\ getDomainFileName (sanitize d1) = getDomainFileName d1.
Proof.
  intros Hsame Hw. split.
  - unfold Index.loadDomainHistory, Index.saveDomainHistory.
    rewrite Hw. simpl.
    rewrite (proj2 (getDomainFileName_eq d1 d2) Hsame), lookup_insert_eq.
    unfold stored. by rewrite filterElems_objects.
  - apply getDomainFileName_eq, sanitize_idempotent.
Qed.

Lemma domains_share_record_witness :
  Index.loadDomainHistory "https___example.com" (sampleNow + 60000)
    (Index.saveDomainHistory "https://example.com" completeHistory
       (mkDisk true ∅))
  = List.filter (validRecent (sampleNow + 60000)) completeHistory
  /\ getDomainFileName (sanitize "https://example.com")
     = getDomainFileName "https://example.com".
Proof.
  apply (domains_share_record "https://example.com" "https___example.com"
           completeHistory (sampleNow + 60000) (mkDisk true ∅)).
  - reflexivity.
  - reflexivity.
Defined.

(** X3.  Saving the history of one domain leaves what a load returns for
    every domain with another file name as it was; and a save into a
    directory that cannot be written changes no load at all. *)
Theorem save_leaves_other_records d1 d2 history now d :
  sanitize d1 <> sanitize d2 \/ writable d = false ->
  Index.loadDomainHistory d2 now (Index.saveDomainHistory d1 history d)
  = Index.loadDomainHistory d2 now d.
Proof.
  intros [Hdiff|Hw]; unfold Index.loadDomainHistory, Index.saveDomainHistory.
  - destruct (writable d); [|done]. simpl.
    rewrite lookup_insert_ne; [done|].
    intros Heq. by apply Hdiff, getDomainFileName_eq.
  - by rewrite Hw.
Qed.

Lemma save_leaves_other_records_witness :
  Index.loadDomainHistory "https://example.org" sampleNow
    (Index.saveDomainHistory "https://example.com" completeHistory
       (mkDisk true {["https___example.org.json" := stored sampleHistory]}))
  = Index.loadDomainHistory "https://example.org" sampleNow
      (mkDisk true {["https___example.org.json" := stored sampleHistory]}).
Proof.
  apply (save_leaves_other_records "https://example.com"
           "https://example.org" completeHistory sampleNow).
  left. vm_compute. discriminate.
Defined.

(** ** The checks of [checkDomain] *)

(** X4.  A check reaches the success branch exactly when the request
    resolved with a status from 200 to 399, took no longer than
    [timeoutSeconds * 1000] milliseconds (the limit itself passes) and the
    body does not contain the PHP error marker. *)
Theorem classify_healthy_iff config p :
  classify config p = None
  <-> exists response,
        request p = inl response
        /\ 200 <= statusCode response <= 399
        /\ respondedAt p - startTime p <= timeoutSeconds config * 1000
        /\ includes (body response) "A PHP Error was encountered" = false.
Proof.
  unfold classify. split.
  - destruct (request p) as [response|message]; [|done].
    destruct (statusCode response <? 200) eqn:Hlo; [done|].
    destruct (400 <=? statusCode response) eqn:Hhi; [done|]. simpl.
    destruct (timeoutSeconds config * 1000 <? respondedAt p - startTime p)
      eqn:Hslow; [done|].
    destruct (includes _ _) eqn:Hphp; [done|].
    intros _. exists response. repeat split; try done; lia.
  - intros (response & -> & Hcode & Htime & Hphp).
    assert ((statusCode response <? 200) || (400 <=? statusCode response)
            = false) as -> by (apply orb_false_iff; lia).
    assert ((timeoutSeconds config * 1000 <? respondedAt p - startTime p)
            = false) as -> by lia.
    by rewrite Hphp.
Qed.

(** X5.  With a timeout of five seconds the earlier monitor and the
    current one give the same verdict, message included, for every
    response except those with a status from 201 to 399, which only the
    current one accepts. *)
Theorem Legacy_classify_agrees config p response :
  timeoutSeconds config = 5 ->
  request p = inl response ->
  Legacy.classify p = classify config p
  <-> ~ (200 < statusCode response <= 399).
Proof.
  intros Htimeout Hreq. unfold Legacy.classify, classify.
  rewrite Hreq, Htimeout. change (5 * 1000) with 5000.
  change (pretty 5000) with "5000".
  destruct (statusCode response =? 200) eqn:H200.
  - assert ((statusCode response <? 200) || (400 <=? statusCode response)
            = false) as -> by (apply orb_false_iff; lia).
    simpl. split; [lia|]. intros _.
    by repeat case_match.
  - simpl negb. cbv iota.
    destruct ((statusCode response <? 200) || (400 <=? statusCode response))
      eqn:Hout.
    + split; [|done]. intros _. apply orb_true_iff in Hout. lia.
    + apply orb_false_iff in Hout. split; [|lia].
      intros H. exfalso. simpl in H. repeat case_match; discriminate.
Qed.

Lemma Legacy_classify_agrees_witness :
  Legacy.classify
    (mkProbe 0 (inl (mkResponse 404 "gone")) 50 60 (fun _ => None))
  = classify (mkConfig ["https://example.com"] 5)
      (mkProbe 0 (inl (mkResponse 404 "gone")) 50 60 (fun _ => None)).
Proof.
  apply (Legacy_classify_agrees (mkConfig ["https://example.com"] 5)
           (mkProbe 0 (inl (mkResponse 404 "gone")) 50 60 (fun _ => None))
           (mkResponse 404 "gone") eq_refl eq_refl).
  simpl. lia.
Defined.

(** X6.  On a verdict they share, the earlier [checkDomain] and the
    current one leave the same [healthState], hand the same notifications
    to the webhook and reject alike: the current one adds the history and
    nothing else. *)
Theorem Legacy_checkDomain_agrees config domain p w :
  Legacy.classify p = classify config p ->
  Legacy.checkDomain domain p (healthState w)
  = (healthState (world (checkDomain config domain p w)),
     sent (checkDomain config domain p w),
     rejected (checkDomain config domain p w)).
Proof.
  intros Hsame. unfold Legacy.checkDomain, checkDomain.
  destruct (healthState w !! domain) as [state|]; [|done].
  rewrite Hsame.
  destruct (classify config p) as [message|].
  - unfold Legacy.onError, onError. simpl.
    repeat (case_match; simpl); try done; congruence.
  - destruct (consecutiveSuccesses (succeeded p state) =? 10); [|done].
    destruct (slack p (Recovered domain)) as [message|]; [|done].
    unfold Legacy.onError, onError. simpl.
    repeat (case_match; simpl); try done; congruence.
Qed.

Lemma Legacy_checkDomain_agrees_witness :
  Legacy.checkDomain "https://example.com" (failingProbe 0)
    (healthState sampleWorld)
  = (healthState (world (checkDomain sampleConfig "https://example.com"
                           (failingProbe 0) sampleWorld)),
     sent (checkDomain sampleConfig "https://example.com" (failingProbe 0)
             sampleWorld),
     rejected (checkDomain sampleConfig "https://example.com"
                 (failingProbe 0) sampleWorld)).
Proof.
  apply (Legacy_checkDomain_agrees sampleConfig "https://example.com"
           (failingProbe 0) sampleWorld).
  reflexivity.
Defined.

(** ** One check and the world *)

Lemma addToHistory_other domain status now w other :
  other <> domain ->
  healthHistory (addToHistory domain status now w) !! other
  = healthHistory w !! other.
Proof. intros Hne. unfold addToHistory. simpl. by rewrite lookup_insert_ne. Qed.

(** The worlds a check can leave. *)
Lemma checkDomain_world config domain p w :
  let r := checkDomain config domain p w in
  world r = w
  \/ (exists state status,
        world r = addToHistory domain status (checkedAt p)
                    (setState domain state w))
  \/ (exists state state',
        world r = addToHistory domain "unhealthy" (checkedAt p)
                    (setState domain state'
                       (addToHistory domain "healthy" (checkedAt p)
                          (setState domain state w)))).
Proof.
  unfold checkDomain, onError.
  repeat (case_match; simpl); eauto 10.
Qed.

Lemma checkDomain_frame config domain p w other :
  other <> domain ->
  healthState (world (checkDomain config domain p w)) !! other
  = healthState w !! other
  /\ healthHistory (world (checkDomain config domain p w)) !! other
     = healthHistory w !! other.
Proof.
  intros Hne.
  destruct (checkDomain_world config domain p w)
    as [->|[(state & status & ->)|(state & state' & ->)]]; simpl.
  - done.
  - by rewrite !lookup_insert_ne.
  - by rewrite !lookup_insert_ne.
Qed.

Lemma saveDomainHistory_other_file domain history d other :
  sanitize other <> sanitize domain ->
  files (Index.saveDomainHistory domain history d) !! getDomainFileName other
  = files d !! getDomainFileName other.
Proof.
  intros Hne. unfold Index.saveDomainHistory.
  destruct (writable d); [|done]. simpl.
  rewrite lookup_insert_ne; [done|].
  intros Heq. by apply Hne, eq_sym, getDomainFileName_eq.
Qed.

(** X7.  A check of one domain changes neither the state nor the
    in-memory history of any other domain, nor the file of any domain
    with another file name. *)
Theorem checkDomain_other_domains config domain p w other :
  other <> domain ->
  healthState (world (checkDomain config domain p w)) !! other
  = healthState w !! other
  /\ healthHistory (world (checkDomain config domain p w)) !! other
     = healthHistory w !! other
  /\ (sanitize other <> sanitize domain ->
      files (disk (world (checkDomain config domain p w)))
        !! getDomainFileName other
      = files (disk w) !! getDomainFileName other).
Proof.
  intros Hne.
  destruct (checkDomain_frame config domain p w other Hne) as [Hs Hh].
  split; [done|]. split; [done|]. intros Hfile.
  destruct (checkDomain_world config domain p w)
    as [->|[(state & status & ->)|(state & state' & ->)]]; [done| |].
  - unfold addToHistory. cbn [disk setState].
    by rewrite saveDomainHistory_other_file.
  - unfold addToHistory. cbn [disk setState].
    by rewrite !saveDomainHistory_other_file.
Qed.

Lemma checkDomain_other_domains_witness :
  let r := checkDomain sampleConfig "https://example.com" (failingProbe 0)
             sampleWorld in
  healthState (world r) !! "https://example.org"
  = healthState sampleWorld !! "https://example.org"
  /\ healthHistory (world r) !! "https://example.org"
     = healthHistory sampleWorld !! "https://example.org"
  /\ (sanitize "https://example.org" <> sanitize "https://example.com" ->
      files (disk (world r)) !! getDomainFileName "https://example.org"
      = files (disk sampleWorld) !! getDomainFileName "https://example.org").
Proof.
  apply (checkDomain_other_domains sampleConfig "https://example.com"
           (failingProbe 0) sampleWorld "https://example.org").
  discriminate.
Defined.

(** The fields of a state that go together. *)
Definition coherent (state : State) : Prop :=
  match status state with
  | unknown =>
      lastCheck state = None /\ lastError state = None
      /\ consecutiveErrors state = 0 /\ consecutiveSuccesses state = 0
  | healthy =>
      is_Some (lastCheck state) /\ lastError state = None
      /\ consecutiveErrors state = 0 /\ 0 < consecutiveSuccesses state
  | unhealthy =>
      is_Some (lastCheck state) /\ is_Some (lastError state)
      /\ 0 < consecutiveErrors state /\ consecutiveSuccesses state = 0
  end.

Lemma CheckStep_coherent config domain p state state' ns :
  coherent state ->
  CheckStep config domain p state state' ns ->
  coherent state' /\ status state' <> unknown.
Proof.
  intros Hco Hstep.
  assert (0 <= consecutiveErrors state /\ 0 <= consecutiveSuccesses state)
    as [He Hs].
  { unfold coherent in Hco. destruct (status state); lia. }
  destruct Hstep; unfold coherent; simpl; split; try done;
    repeat split; try (by eexists); lia.
Qed.

Lemma after_coherent config domain ps w state :
  healthState w !! domain = Some state ->
  coherent state ->
  exists final,
    healthState (after config domain ps w) !! domain = Some final
    /\ coherent final
    /\ (ps <> [] \/ status state <> unknown -> status final <> unknown).
Proof.
  revert w state.
  induction ps as [|p ps IH]; intros w state Hstate Hco; simpl.
  - exists state. split; [done|]. split; [done|]. by intros [|].
  - destruct (checkDomain_CheckStep config domain p w state Hstate)
      as (state' & Hstate' & Hstep).
    destruct (CheckStep_coherent _ _ _ _ _ _ Hco Hstep) as [Hco' Hknown].
    destruct (IH _ state' Hstate' Hco') as (final & Hfinal & Hcof & Hk).
    exists final. split; [done|]. split; [done|]. intros _. apply Hk. by right.
Qed.

(** X8.  From the initial state, after any sequence of checks the state
    of the domain is coherent: never checked, all fields at their initial
    values; healthy, no error recorded, no failure counted and at least
    one success; unhealthy, an error recorded, at least one failure
    counted and no success.  Once checked, a domain is never unknown
    again. *)
Theorem state_coherent config domain ps w :
  healthState w !! domain = Some initialState ->
  exists state,
    healthState (after config domain ps w) !! domain = Some state
    /\ coherent state
    /\ (ps <> [] -> status state <> unknown).
Proof.
  intros Hinit.
  destruct (after_coherent config domain ps w initialState Hinit)
    as (final & Hfinal & Hco & Hk).
  { unfold coherent. simpl. done. }
  exists final. split; [done|]. split; [done|].
  intros Hne. apply Hk. by left.
Qed.

Lemma state_coherent_witness :
  exists state,
    healthState
      (after sampleConfig "https://example.com"
         [failingProbe 0; passingProbe 60000] sampleWorld)
      !! "https://example.com" = Some state
    /\ coherent state
    /\ ([failingProbe 0; passingProbe 60000] <> [] -> status state <> unknown).
Proof.
  apply (state_coherent sampleConfig "https://example.com"
           [failingProbe 0; passingProbe 60000] sampleWorld).
  reflexivity.
Defined.

(** The number of checks at the end of a sequence that failed, and that
    passed, without interruption. *)
Definition failuresInARow (config : Config) (ps : list Probe) : nat :=
  foldl (fun n p => match classify config p with
                    | Some _ => S n
                    | None => O
                    end) O ps.

Definition successesInARow (config : Config) (ps : list Probe) : nat :=
  foldl (fun n p => match classify config p with
                    | Some _ => O
                    | None => S n
                    end) O ps.

(** X9.  From the initial state, as long as the webhook takes the
    recovery message, [consecutiveErrors] is the number of checks that
    failed in a row up to now and [consecutiveSuccesses] the number that
    passed in a row up to now. *)
Theorem counters_count_streak config domain ps w :
  healthState w !! domain = Some initialState ->
  Forall (fun p => slack p (Recovered domain) = None) ps ->
  exists state,
    healthState (after config domain ps w) !! domain = Some state
    /\ consecutiveErrors state = Z.of_nat (failuresInARow config ps)
    /\ consecutiveSuccesses state = Z.of_nat (successesInARow config ps).
Proof.
  intros Hinit.
  induction ps as [|p ps IH] using rev_ind; intros Hslack.
  - by exists initialState.
  - apply Forall_app in Hslack as [Hslack Hp].
    inversion Hp as [|? ? Hp0 _]; subst; clear Hp.
    destruct (IH Hslack) as (state & Hstate & He & Hs).
    rewrite after_snoc.
    destruct (checkDomain_CheckStep config domain p _ state Hstate)
      as (state' & Hstate' & Hstep).
    exists state'. split; [done|].
    unfold failuresInARow, successesInARow. rewrite !foldl_app. simpl.
    fold (failuresInARow config ps). fold (successesInARow config ps).
    destruct Hstep as [message Hc|Hc Hn|Hc Hn Hsl|message Hc Hn Hsl];
      rewrite ?Hc; simpl; try lia; congruence.
Qed.

Lemma counters_count_streak_witness :
  exists state,
    healthState
      (after sampleConfig "https://example.com"
         [passingProbe 0; failingProbe 60000; failingProbe 120000]
         sampleWorld) !! "https://example.com" = Some state
    /\ consecutiveErrors state
       = Z.of_nat (failuresInARow sampleConfig
                     [passingProbe 0; failingProbe 60000; failingProbe 120000])
    /\ consecutiveSuccesses state
       = Z.of_nat (successesInARow sampleConfig
                     [passingProbe 0; failingProbe 60000; failingProbe 120000]).
Proof.
  apply (counters_count_streak sampleConfig "https://example.com"
           [passingProbe 0; failingProbe 60000; failingProbe 120000]
           sampleWorld).
  - reflexivity.
  - repeat constructor.
Defined.

Lemma onError_world domain message p state w before :
  world (onError domain message p state w before)
  = addToHistory domain "unhealthy" (checkedAt p)
      (setState domain (failed message p state) w).
Proof. unfold onError. by repeat (case_match; simpl). Qed.

(** The string [addToHistory] is given for a status. *)
Definition statusName (s : Status) : string :=
  match s with
  | unknown => "unknown"
  | healthy => "healthy"
  | unhealthy => "unhealthy"
  end.

(** X10.  After a check of a configured domain the last entry of its
    in-memory history is dated at the check and carries the status the
    state now has, also when the webhook turned a message down. *)
Theorem check_recorded config domain p w state :
  healthState w !! domain = Some state ->
  exists state' history',
    healthState (world (checkDomain config domain p w)) !! domain = Some state'
    /\ healthHistory (world (checkDomain config domain p w)) !! domain
       = Some history'
    /\ last history'
       = Some (Entry.mk (JIso (checkedAt p)) (JStr (statusName (status state')))).
Proof.
  intros Hstate. unfold checkDomain. rewrite Hstate.
  destruct (classify config p) as [message|].
  - rewrite onError_world. eexists _, _.
    split; [apply lookup_insert_eq|]. split; [apply addToHistory_history|].
    rewrite keepLastMonth_snoc_new. apply last_snoc.
  - cbv zeta.
    destruct (consecutiveSuccesses (succeeded p state) =? 10);
      [destruct (slack p (Recovered domain)) as [message|]|].
    + rewrite onError_world. eexists _, _.
      split; [apply lookup_insert_eq|]. split; [apply addToHistory_history|].
      rewrite keepLastMonth_snoc_new. apply last_snoc.
    + eexists _, _.
      split; [apply lookup_insert_eq|]. split; [apply addToHistory_history|].
      rewrite keepLastMonth_snoc_new. apply last_snoc.
    + eexists _, _.
      split; [apply lookup_insert_eq|]. split; [apply addToHistory_history|].
      rewrite keepLastMonth_snoc_new. apply last_snoc.
Qed.

Lemma check_recorded_witness :
  exists state' history',
    healthState (world (checkDomain sampleConfig "https://example.com"
                          (failingProbe 0) sampleWorld))
      !! "https://example.com" = Some state'
    /\ healthHistory (world (checkDomain sampleConfig "https://example.com"
                               (failingProbe 0) sampleWorld))
         !! "https://example.com" = Some history'
    /\ last history'
       = Some (Entry.mk (JIso (checkedAt (failingProbe 0)))
                 (JStr (statusName (status state')))).
Proof.
  apply (check_recorded sampleConfig "https://example.com" (failingProbe 0)
           sampleWorld initialState).
  reflexivity.
Defined.

Lemma keepLastMonth_idempotent now history :
  keepLastMonth now (keepLastMonth now history) = keepLastMonth now history.
Proof. apply keepLastMonth_twice. lia. Qed.

(** X11.  When the webhook turns down the recovery message of the tenth
    success in a row, the handler of [checkDomain] runs as for a failed
    check: the domain ends unhealthy with the webhook's error as
    [lastError], one failure and no success counted, the history gains a
    healthy and then an unhealthy entry for the same check, and an alert
    follows the recovery message. *)
Theorem recovery_rejected_marks_unhealthy config domain p w state message :
  healthState w !! domain = Some state ->
  classify config p = None ->
  consecutiveSuccesses state = 9 ->
  slack p (Recovered domain) = Some message ->
  let r := checkDomain config domain p w in
  healthState (world r) !! domain
  = Some {| status := unhealthy;
            lastCheck := Some (checkedAt p);
            lastError := Some message;
            consecutiveErrors := 1;
            consecutiveSuccesses := 0;
            responseTime := Some (checkedAt p - startTime p) |}
  /\ sent r = [Recovered domain; Alert domain message]
  /\ rejected r = slack p (Alert domain message)
  /\ healthHistory (world r) !! domain
     = Some (keepLastMonth (checkedAt p)
               (default [] (healthHistory w !! domain))
             ++ [Entry.mk (JIso (checkedAt p)) (JStr "healthy");
                 Entry.mk (JIso (checkedAt p)) (JStr "unhealthy")]).
Proof.
  intros Hstate Hc Hnine Hslack. cbv zeta.
  unfold checkDomain. rewrite Hstate, Hc. cbv zeta.
  assert ((consecutiveSuccesses (succeeded p state) =? 10) = true) as ->.
  { simpl. lia. }
  rewrite Hslack. split_and!.
  - by rewrite onError_state.
  - by rewrite onError_sent.
  - unfold onError. simpl. by destruct (slack p (Alert domain message)).
  - rewrite onError_world, addToHistory_history.
    change (healthHistory (setState domain ?s ?w0)) with (healthHistory w0).
    rewrite addToHistory_history. simpl default.
    change (healthHistory (setState domain ?s ?w0)) with (healthHistory w0).
    rewrite !keepLastMonth_snoc_new, keepLastMonth_idempotent.
    by rewrite <- app_assoc.
Qed.

Definition rejectingProbe : Probe :=
  mkProbe 0 (inl (mkResponse 200 "ok")) 50 60 (fun _ => Some "socket hang up").

Definition nineSuccesses : State := mkState healthy (Some 0) None 0 9 (Some 50).

Lemma recovery_rejected_marks_unhealthy_witness :
  let w := setState "https://example.com" nineSuccesses sampleWorld in
  let r := checkDomain sampleConfig "https://example.com" rejectingProbe w in
  healthState (world r) !! "https://example.com"
  = Some {| status := unhealthy;
            lastCheck := Some (checkedAt rejectingProbe);
            lastError := Some "socket hang up";
            consecutiveErrors := 1;
            consecutiveSuccesses := 0;
            responseTime :=
              Some (checkedAt rejectingProbe - startTime rejectingProbe) |}
  /\ sent r = [Recovered "https://example.com";
               Alert "https://example.com" "socket hang up"]
  /\ rejected r
     = slack rejectingProbe (Alert "https://example.com" "socket hang up")
  /\ healthHistory (world r) !! "https://example.com"
     = Some (keepLastMonth (checkedAt rejectingProbe)
               (default [] (healthHistory w !! "https://example.com"))
             ++ [Entry.mk (JIso (checkedAt rejectingProbe)) (JStr "healthy");
                 Entry.mk (JIso (checkedAt rejectingProbe))
                   (JStr "unhealthy")]).
Proof.
  apply (recovery_rejected_marks_unhealthy sampleConfig "https://example.com"
           rejectingProbe
           (setState "https://example.com" nineSuccesses sampleWorld)
           nineSuccesses "socket hang up");
    reflexivity.
Defined.

Lemma checkDomain_rejects_only_cases config domain p w e :
  rejected (checkDomain config domain p w) = Some e ->
  healthState w !! domain = None
  \/ (exists n, last (sent (checkDomain config domain p w)) = Some n
                /\ slack p n = Some e).
Proof.
  unfold checkDomain, onError.
  destruct (healthState w !! domain) as [state|]; [|by left].
  intros Hrej. right.
  repeat (case_match; simpl in * ); try discriminate;
    eexists; (split; [reflexivity || apply last_snoc | congruence]).
Qed.

(** X12.  [checkDomain] rejects only for a domain that is not in
    [healthState], in which case it changes nothing and sends nothing,
    or with the error of the webhook on the last message it handed
    over; a failed request or a failed check never makes it reject. *)
Theorem checkDomain_rejects_only config domain p w e :
  rejected (checkDomain config domain p w) = Some e ->
  (healthState w !! domain = None
   /\ world (checkDomain config domain p w) = w
   /\ sent (checkDomain config domain p w) = [])
  \/ (exists n, last (sent (checkDomain config domain p w)) = Some n
                /\ slack p n = Some e).
Proof.
  unfold checkDomain, onError.
  destruct (healthState w !! domain) as [state|]; [|by left].
  intros Hrej. right.
  repeat (case_match; simpl in * ); try discriminate;
    eexists; (split; [reflexivity || apply last_snoc | congruence]).
Qed.

Lemma checkDomain_rejects_only_witness :
  (healthState sampleWorld !! "https://example.org" = None
   /\ world (checkDomain sampleConfig "https://example.org" (passingProbe 0)
               sampleWorld) = sampleWorld
   /\ sent (checkDomain sampleConfig "https://example.org" (passingProbe 0)
              sampleWorld) = [])
  \/ (exists n,
        last (sent (checkDomain sampleConfig "https://example.org"
                      (passingProbe 0) sampleWorld)) = Some n
        /\ slack (passingProbe 0) n = Some "TypeError").
Proof.
  apply (checkDomain_rejects_only sampleConfig "https://example.org"
           (passingProbe 0) sampleWorld "TypeError").
  reflexivity.
Defined.

(** ** Appending and the data directory *)

(** The instants of the entries of a history, in order. *)
Definition times (history : list Entry.t) : list Z :=
  omap (fun entry => Date_getTime (Entry.timestamp entry)) history.

(** In time order, and nothing later than [now]. *)
Definition chronological (now : Z) (history : list Entry.t) : Prop :=
  StronglySorted Z.le (times history)
  /\ Forall (fun t => t <= now) (times history).

Lemma times_cons entry history :
  times (entry :: history)
  = match Date_getTime (Entry.timestamp entry) with
    | Some t => t :: times history
    | None => times history
    end.
Proof. reflexivity. Qed.

Lemma times_keepLastMonth now history :
  times (keepLastMonth now history)
  = List.filter (fun t => now - oneMonth <=? t) (times history).
Proof.
  unfold keepLastMonth.
  induction history as [|entry history IH]; [done|].
  rewrite times_cons. cbn [List.filter].
  unfold withinLastMonth at 1, Date_ge.
  destruct (Date_getTime (Entry.timestamp entry)) as [t|] eqn:Ht.
  - cbn [List.filter]. destruct (now - oneMonth <=? t).
    + by rewrite times_cons, Ht, IH.
    + done.
  - done.
Qed.

Lemma StronglySorted_le_filter f (l : list Z) :
  StronglySorted Z.le l -> StronglySorted Z.le (List.filter f l).
Proof.
  induction 1 as [|t l _ IH Hall]; simpl; [constructor|].
  destruct (f t); [|done].
  constructor; [done|].
  apply Forall_forall. intros u Hu.
  apply list_elem_of_In, List.filter_In in Hu as [Hu _].
  rewrite Forall_forall in Hall. by apply Hall, list_elem_of_In.
Qed.

(** X13.  A history in time order with nothing later than the clock
    stays so under [addToHistory], provided the clock has not gone
    back. *)
Theorem addToHistory_chronological domain status now now' w :
  chronological now (default [] (healthHistory w !! domain)) ->
  now <= now' ->
  exists history',
    healthHistory (addToHistory domain status now' w) !! domain = Some history'
    /\ chronological now' history'.
Proof.
  intros [Hsorted Hpast] Hle. eexists. split; [apply addToHistory_history|].
  rewrite keepLastMonth_snoc_new. unfold chronological.
  assert (times (keepLastMonth now' (default [] (healthHistory w !! domain))
                 ++ [Entry.mk (JIso now') (JStr status)])
          = List.filter (fun t => now' - oneMonth <=? t)
              (times (default [] (healthHistory w !! domain))) ++ [now'])
    as ->.
  { unfold times at 1. rewrite omap_app.
    fold (times (keepLastMonth now'
                   (default [] (healthHistory w !! domain)))).
    by rewrite times_keepLastMonth. }
  assert (Forall (fun t => t <= now')
            (List.filter (fun t => now' - oneMonth <=? t)
               (times (default [] (healthHistory w !! domain))))) as Hall.
  { apply Forall_forall. intros t Ht.
    apply list_elem_of_In, List.filter_In in Ht as [Ht _].
    rewrite Forall_forall in Hpast.
    apply list_elem_of_In, Hpast in Ht. lia. }
  split.
  - apply StronglySorted_app_2.
    + intros t1 t2 Ht1 Ht2. apply list_elem_of_singleton in Ht2 as ->.
      rewrite Forall_forall in Hall. by apply Hall.
    + by apply StronglySorted_le_filter.
    + repeat constructor.
  - apply Forall_app. split; [done|]. repeat constructor. lia.
Qed.

(** A world whose history for the domain is in time order. *)
Definition orderedWorld : World :=
  {| healthState := {["https://example.com" := initialState]};
     healthHistory :=
       {["https://example.com" :=
           [staleEntry;
            Entry.mk (JIso (sampleNow - 60000)) (JStr "healthy")]]};
     disk := mkDisk true ∅ |}.

Lemma addToHistory_chronological_witness :
  exists history',
    healthHistory
      (addToHistory "https://example.com" "healthy" (sampleNow + 60000)
         orderedWorld) !! "https://example.com" = Some history'
    /\ chronological (sampleNow + 60000) history'.
Proof.
  apply (addToHistory_chronological "https://example.com" "healthy"
           (sampleNow - 60000) (sampleNow + 60000) orderedWorld).
  - assert (default [] (healthHistory orderedWorld !! "https://example.com")
            = [staleEntry;
               Entry.mk (JIso (sampleNow - 60000)) (JStr "healthy")])
      as -> by reflexivity.
    split; unfold times, staleEntry; simpl; repeat constructor; lia.
  - lia.
Defined.

Definition complete (entry : Entry.t) : Prop :=
  truthy (Entry.timestamp entry) = true /\ truthy (Entry.status entry) = true.

Lemma complete_keepLastMonth now history :
  Forall complete history -> Forall complete (keepLastMonth now history).
Proof.
  intros Hall. apply Forall_forall. intros entry Hin.
  apply list_elem_of_In, List.filter_In in Hin as [Hin _].
  rewrite Forall_forall in Hall. by apply Hall, list_elem_of_In.
Qed.

(** X14.  With a writable data directory, a non-empty status and an
    in-memory history whose entries all have a timestamp and a status,
    what [addToHistory] leaves on disk is what it leaves in memory: a
    load at the same clock reading returns the in-memory history. *)
Theorem addToHistory_persisted domain status now w :
  writable (disk w) = true ->
  status <> EmptyString ->
  Forall complete (default [] (healthHistory w !! domain)) ->
  healthHistory (addToHistory domain status now w) !! domain
  = Some (Index.loadDomainHistory domain now
            (disk (addToHistory domain status now w))).
Proof.
  intros Hw Hstatus Hcomplete.
  rewrite addToHistory_history. f_equal.
  unfold addToHistory, Index.loadDomainHistory, Index.saveDomainHistory.
  simpl. rewrite Hw. simpl. rewrite lookup_insert_eq.
  unfold stored. rewrite filterElems_objects.
  rewrite filter_validRecent.
  - by rewrite keepLastMonth_idempotent.
  - apply complete_keepLastMonth, Forall_app. split; [done|].
    repeat constructor. simpl.
    destruct status; [done | reflexivity].
Qed.

Lemma addToHistory_persisted_witness :
  healthHistory
    (addToHistory "https://example.com" "healthy" sampleNow orderedWorld)
    !! "https://example.com"
  = Some (Index.loadDomainHistory "https://example.com" sampleNow
            (disk (addToHistory "https://example.com" "healthy" sampleNow
                     orderedWorld))).
Proof.
  apply (addToHistory_persisted "https://example.com" "healthy" sampleNow
           orderedWorld).
  - reflexivity.
  - discriminate.
  - vm_compute. repeat constructor.
Defined.

(** ** Start-up *)

Lemma foldl_insert_const {V} (v : V) (ds : list string) domain :
  foldl (fun m d => <[d := v]> m) (∅ : gmap string V) ds !! domain
  = if decide (domain ∈ ds) then Some v else None.
Proof.
  induction ds as [|d ds IH] using rev_ind.
  - simpl. rewrite lookup_empty.
    destruct (decide (domain ∈ [])) as [Hin|_]; [|done].
    by apply not_elem_of_nil in Hin.
  - rewrite foldl_app. simpl.
    destruct (decide (d = domain)) as [->|Hne].
    + rewrite lookup_insert_eq, decide_True; [done|].
      apply elem_of_app. right. apply list_elem_of_here.
    + rewrite lookup_insert_ne, IH by done.
      destruct (decide (domain ∈ ds)) as [Hin|Hnin].
      * rewrite decide_True; [done|]. apply elem_of_app. by left.
      * rewrite decide_False; [done|].
        intros [Hin|Hin]%elem_of_app; [done|].
        apply list_elem_of_singleton in Hin. congruence.
Qed.

(** X15.  At start-up exactly the configured domains have a state, the
    initial one, and a history, the empty one. *)
Theorem initialWorld_lookup config d domain :
  healthState (initialWorld config d) !! domain
  = (if decide (domain ∈ domains config) then Some initialState else None)
  /\ healthHistory (initialWorld config d) !! domain
     = (if decide (domain ∈ domains config) then Some [] else None).
Proof. unfold initialWorld. simpl. split; apply foldl_insert_const. Qed.

Lemma loadAllPersistedData_fold timeout ds now w domain :
  let w' := loadAllPersistedData (mkConfig ds timeout) now w in
  healthState w' = healthState w
  /\ disk w' = disk w
  /\ healthHistory w' !! domain
     = if decide (domain ∈ ds
                  /\ Index.loadDomainHistory domain now (disk w) <> [])
       then Some (Index.loadDomainHistory domain now (disk w))
       else healthHistory w !! domain.
Proof.
  unfold loadAllPersistedData. cbn [domains].
  induction ds as [|d ds IH] using rev_ind.
  - cbn [foldl]. split; [done|]. split; [done|].
    rewrite decide_False; [done|]. intros [Hin _]. by apply not_elem_of_nil in Hin.
  - rewrite foldl_app. cbn [foldl]. cbv zeta in IH.
    remember (foldl _ w ds) as W eqn:HW. clear HW.
    destruct IH as (Hs & Hd & Hh). cbv zeta. rewrite Hd.
    destruct (Index.loadDomainHistory d now (disk w)) as [|entry loaded] eqn:Hl.
    + simpl. split; [done|]. split; [done|]. rewrite Hh.
      destruct (decide (domain ∈ ds /\ _)) as [[Hin Hne]|Hno].
      * rewrite decide_True; [done|]. split; [|done].
        apply elem_of_app. by left.
      * rewrite decide_False; [done|]. intros [Hin Hne]. apply Hno.
        split; [|done].
        apply elem_of_app in Hin as [Hin|Hin]; [done|].
        apply list_elem_of_singleton in Hin. subst. congruence.
    + simpl. split; [done|]. split; [done|].
      destruct (decide (d = domain)) as [->|Hdiff].
      * rewrite lookup_insert_eq, Hl, decide_True; [done|]. split; [|done].
        apply elem_of_app. right. apply list_elem_of_here.
      * rewrite lookup_insert_ne, Hh by done.
        destruct (decide (domain ∈ ds /\ _)) as [[Hin Hne]|Hno].
        -- rewrite decide_True; [done|]. split; [|done].
           apply elem_of_app. by left.
        -- rewrite decide_False; [done|]. intros [Hin Hne]. apply Hno.
           split; [|done].
           apply elem_of_app in Hin as [Hin|Hin]; [done|].
           apply list_elem_of_singleton in Hin. congruence.
Qed.

(** X16.  [loadAllPersistedData] touches neither [healthState] nor the
    data directory.  The in-memory history of a configured domain is
    replaced by what its file yields when that is not empty; a configured
    domain whose file yields nothing, and every domain that is not
    configured, keeps the history it had. *)
Theorem loadAllPersistedData_lookup config now w domain :
  healthState (loadAllPersistedData config now w) = healthState w
  /\ disk (loadAllPersistedData config now w) = disk w
  /\ healthHistory (loadAllPersistedData config now w) !! domain
     = if decide (domain ∈ domains config
                  /\ Index.loadDomainHistory domain now (disk w) <> [])
       then Some (Index.loadDomainHistory domain now (disk w))
       else healthHistory w !! domain.
Proof.
  destruct config as [ds timeout].
  apply (loadAllPersistedData_fold timeout ds now w domain).
Qed.

(** X17.  A restart brings the history back: after an append (writable
    directory, non-empty status, entries with timestamp and status),
    starting again from the directory it left and loading at a later
    clock reading gives the configured domain the history it had in
    memory, trimmed to the 30 days before the load. *)
Theorem restart_restores_history config domain status now now' w history' :
  writable (disk w) = true ->
  status <> EmptyString ->
  Forall complete (default [] (healthHistory w !! domain)) ->
  domain ∈ domains config ->
  now <= now' ->
  healthHistory (addToHistory domain status now w) !! domain = Some history' ->
  healthHistory
    (loadAllPersistedData config now'
       (initialWorld config (disk (addToHistory domain status now w))))
    !! domain
  = Some (keepLastMonth now' history').
Proof.
  intros Hw Hstatus Hcomplete Hin Hle Hmem.
  rewrite addToHistory_history in Hmem. injection Hmem as <-.
  destruct config as [ds timeout]. cbn [domains] in Hin.
  destruct (loadAllPersistedData_fold timeout ds now'
              (initialWorld (mkConfig ds timeout)
                 (disk (addToHistory domain status now w)))
              domain) as (_ & _ & ->).
  assert (Index.loadDomainHistory domain now'
            (disk (addToHistory domain status now w))
          = keepLastMonth now'
              (keepLastMonth now
                 (default [] (healthHistory w !! domain)
                  ++ [Entry.mk (JIso now) (JStr status)]))) as Hload.
  { unfold addToHistory, Index.loadDomainHistory, Index.saveDomainHistory.
    simpl. rewrite Hw. simpl. rewrite lookup_insert_eq.
    unfold stored. rewrite filterElems_objects.
    apply filter_validRecent.
    apply complete_keepLastMonth, Forall_app. split; [done|].
    repeat constructor. simpl. destruct status; [done | reflexivity]. }
  change (disk (initialWorld (mkConfig ds timeout) ?d0)) with d0.
  rewrite Hload.
  destruct (decide (domain ∈ ds /\ _)) as [_|Hno]; [done|].
  unfold initialWorld. cbn [healthHistory domains].
  rewrite (foldl_insert_const (@nil Entry.t) ds domain).
  rewrite decide_True by done.
  destruct (keepLastMonth now' _) eqn:Hk; [done|].
  exfalso. apply Hno. split; [done|]. congruence.
Qed.

Lemma restart_restores_history_witness :
  healthHistory
    (loadAllPersistedData sampleConfig (sampleNow + 60000)
       (initialWorld sampleConfig
          (disk (addToHistory "https://example.com" "healthy" sampleNow
                   orderedWorld))))
    !! "https://example.com"
  = Some (keepLastMonth (sampleNow + 60000)
            [Entry.mk (JIso (sampleNow - 60000)) (JStr "healthy");
             Entry.mk (JIso sampleNow) (JStr "healthy")]).
Proof.
  apply (restart_restores_history sampleConfig "https://example.com"
           "healthy" sampleNow (sampleNow + 60000) orderedWorld).
  - reflexivity.
  - discriminate.
  - vm_compute. repeat constructor.
  - apply list_elem_of_here.
  - vm_compute. discriminate.
  - reflexivity.
Defined.

(** ** The pass over all domains *)

Lemma checkDomain_accepted config domain p w state :
  healthState w !! domain = Some state ->
  (forall n, slack p n = None) ->
  rejected (checkDomain config domain p w) = None
  /\ exists state',
       healthState (world (checkDomain config domain p w)) !! domain
       = Some state'
       /\ status state' <> unknown /\ lastCheck state' = Some (checkedAt p).
Proof.
  intros Hstate Hslack. split.
  - unfold checkDomain, onError. rewrite Hstate.
    repeat (case_match; simpl); rewrite ?Hslack in *; congruence.
  - destruct (checkDomain_CheckStep config domain p w state Hstate)
      as (state' & Hstate' & Hstep).
    exists state'. split; [done|]. by destruct Hstep.
Qed.

(** A domain whose state exists and is no longer unknown. *)
Definition checked (w : World) (domain : string) : Prop :=
  exists state, healthState w !! domain = Some state /\ status state <> unknown.

Lemma checkEach_accepted config probe ds :
  (forall i n, slack (probe i) n = None) ->
  forall i w,
    (forall d, d ∈ ds -> is_Some (healthState w !! d)) ->
    let r := checkEach config probe i ds w in
    rejected r = None
    /\ (forall d, is_Some (healthState w !! d) ->
                  is_Some (healthState (world r) !! d))
    /\ (forall d, checked w d -> checked (world r) d)
    /\ (forall d, d ∈ ds -> checked (world r) d).
Proof.
  intros Hslack.
  induction ds as [|domain ds IH]; intros i w Hconf; simpl.
  - split; [done|]. split; [done|]. split; [done|].
    intros d Hd. by apply not_elem_of_nil in Hd.
  - destruct (Hconf domain) as [state Hstate]; [apply list_elem_of_here|].
    destruct (checkDomain_accepted config domain (probe i) w state Hstate
                (Hslack i)) as (Hrej & state' & Hstate' & Hknown & _).
    rewrite Hrej.
    assert (forall d, is_Some (healthState w !! d) ->
                      is_Some (healthState
                                 (world (checkDomain config domain (probe i) w))
                                 !! d)) as Hkeep.
    { intros d Hd. destruct (decide (d = domain)) as [->|Hne]; [by eexists|].
      by rewrite (proj1 (checkDomain_frame config domain (probe i) w
                           d Hne)). }
    assert (forall d, checked w d ->
                      checked (world (checkDomain config domain (probe i) w)) d)
      as Hchecked.
    { intros d (st & Hst & Hk).
      destruct (decide (d = domain)) as [->|Hne]; [by exists state'|].
      exists st. split; [|done].
      by rewrite (proj1 (checkDomain_frame config domain (probe i) w
                           d Hne)). }
    destruct (IH (S i) (world (checkDomain config domain (probe i) w)))
      as (Hrej' & Hkeep' & Hchecked' & Hall).
    { intros d Hd. apply Hkeep, Hconf. by right. }
    simpl. split; [done|]. split; [by auto|]. split; [by auto|].
    intros d Hd. apply elem_of_cons in Hd as [->|Hd].
    + apply Hchecked'. by exists state'.
    + by apply Hall.
Qed.

(** X18.  When every configured domain has a state and the webhook
    takes every message, [runHealthChecks] does not reject, sets the next
    check time to [checkIntervalMinutes] minutes after the clock reading,
    and leaves no configured domain unknown. *)
Theorem runHealthChecks_checks_all config interval probe now w :
  (forall d, d ∈ domains config -> is_Some (healthState w !! d)) ->
  (forall i n, slack (probe i) n = None) ->
  rejected (runHealthChecks config interval probe now w).1 = None
  /\ (runHealthChecks config interval probe now w).2
     = Some (now + interval * 60 * 1000)
  /\ (forall d, d ∈ domains config ->
        checked (world (runHealthChecks config interval probe now w).1) d).
Proof.
  intros Hconf Hslack. unfold runHealthChecks. simpl.
  destruct (checkEach_accepted config probe (domains config) Hslack 0%nat w
              Hconf) as (Hrej & _ & _ & Hall).
  rewrite Hrej. by split_and!.
Qed.

Lemma runHealthChecks_checks_all_witness :
  rejected (runHealthChecks sampleConfig 1 (fun _ => passingProbe 0) 60
              sampleWorld).1 = None
  /\ (runHealthChecks sampleConfig 1 (fun _ => passingProbe 0) 60
        sampleWorld).2 = Some (60 + 1 * 60 * 1000)
  /\ (forall d, d ∈ domains sampleConfig ->
        checked (world (runHealthChecks sampleConfig 1
                          (fun _ => passingProbe 0) 60 sampleWorld).1) d).
Proof.
  apply (runHealthChecks_checks_all sampleConfig 1 (fun _ => passingProbe 0)
           60 sampleWorld).
  - intros d Hd. apply list_elem_of_singleton in Hd as ->. by eexists.
  - reflexivity.
Defined.

Lemma checkEach_app config probe i ds1 ds2 w :
  checkEach config probe i (ds1 ++ ds2) w
  = let r1 := checkEach config probe i ds1 w in
    match rejected r1 with
    | Some _ => r1
    | None =>
        let r2 := checkEach config probe (i + length ds1) ds2 (world r1) in
        mkResult (world r2) (sent r1 ++ sent r2) (rejected r2)
    end.
Proof.
  revert i w. induction ds1 as [|d ds1 IH]; intros i w; simpl.
  - rewrite Nat.add_0_r. by destruct (checkEach config probe i ds2 w).
  - destruct (rejected (checkDomain config d (probe i) w)) eqn:Hrej.
    + by rewrite Hrej.
    + rewrite IH. simpl.
      destruct (rejected (checkEach config probe (S i) ds1 _)) eqn:Hrej1;
        simpl.
      * by rewrite Hrej1.
      * replace (i + S (length ds1))%nat with (S i + length ds1)%nat by lia.
        by rewrite app_assoc.
Qed.

Lemma checkEach_other config probe ds i w other :
  other ∉ ds ->
  healthState (world (checkEach config probe i ds w)) !! other
  = healthState w !! other
  /\ healthHistory (world (checkEach config probe i ds w)) !! other
     = healthHistory w !! other.
Proof.
  revert i w. induction ds as [|d ds IH]; intros i w Hnot; simpl; [done|].
  apply not_elem_of_cons in Hnot as [Hne Hnot].
  destruct (checkDomain_frame config d (probe i) w other Hne)
    as [Hs Hh].
  destruct (rejected (checkDomain config d (probe i) w)); [done|]. simpl.
  destruct (IH (S i) (world (checkDomain config d (probe i) w)) Hnot)
    as [Hs' Hh'].
  by rewrite Hs', Hh'.
Qed.

(** X19.  A check that rejects ends the pass: the domains that come
    after it and were not checked before it keep their state and their
    history, the rejection is that of the pass, and the next check time
    is not set. *)
Theorem runHealthChecks_stops config interval probe now w before domain rest
    e other :
  domains config = before ++ domain :: rest ->
  rejected (checkEach config probe 0 before w) = None ->
  rejected (checkDomain config domain (probe (length before))
              (world (checkEach config probe 0 before w))) = Some e ->
  other ∉ before -> other <> domain ->
  rejected (runHealthChecks config interval probe now w).1 = Some e
  /\ (runHealthChecks config interval probe now w).2 = None
  /\ healthState (world (runHealthChecks config interval probe now w).1)
       !! other = healthState w !! other
  /\ healthHistory (world (runHealthChecks config interval probe now w).1)
       !! other = healthHistory w !! other.
Proof.
  intros Hds Hbefore Hrej Hnot Hne.
  unfold runHealthChecks. rewrite Hds, checkEach_app. simpl.
  rewrite Hbefore. simpl. rewrite Hrej. simpl. rewrite Hrej.
  destruct (checkDomain_frame config domain (probe (length before))
              (world (checkEach config probe 0 before w)) other Hne)
    as [Hs Hh].
  destruct (checkEach_other config probe before 0%nat w other Hnot)
    as [Hs' Hh'].
  split_and!; [done | done | by rewrite Hs, Hs' | by rewrite Hh, Hh'].
Qed.

Definition twoDomains : Config :=
  mkConfig ["https://example.com"; "https://example.org"] 10.

(** The webhook is down and the first domain fails. *)
Definition downProbe : Probe :=
  mkProbe 0 (inl (mkResponse 500 "oops")) 50 60
    (fun _ => Some "socket hang up").

Lemma runHealthChecks_stops_witness :
  let w := initialWorld twoDomains (mkDisk true ∅) in
  rejected (runHealthChecks twoDomains 1 (fun _ => downProbe) 60 w).1
  = Some "socket hang up"
  /\ (runHealthChecks twoDomains 1 (fun _ => downProbe) 60 w).2 = None
  /\ healthState (world (runHealthChecks twoDomains 1 (fun _ => downProbe)
                           60 w).1) !! "https://example.org"
     = healthState w !! "https://example.org"
  /\ healthHistory (world (runHealthChecks twoDomains 1 (fun _ => downProbe)
                             60 w).1) !! "https://example.org"
     = healthHistory w !! "https://example.org".
Proof.
  apply (runHealthChecks_stops twoDomains 1 (fun _ => downProbe) 60
           (initialWorld twoDomains (mkDisk true ∅))
           [] "https://example.com" ["https://example.org"]
           "socket hang up" "https://example.org").
  - reflexivity.
  - reflexivity.
  - reflexivity.
  - apply not_elem_of_nil.
  - discriminate.
Defined.

(** ** More on the grid *)

Lemma slotStatuses_emptyGrid now :
  slotStatuses (emptyGrid now) = replicate 1440 (JStr "unknown").
Proof. vm_compute. reflexivity. Qed.

(** X20.  The grid shows nothing of its own: the status of a slot is
    'unknown' or the status of an entry of the history that has a valid
    date. *)
Theorem grid_statuses_from_history now history (i : nat) s :
  slotStatuses (historyGrid now history) !! i = Some s ->
  s = JStr "unknown"
  \/ exists entry,
       entry ∈ history /\ Entry.status entry = s
       /\ is_Some (Date_getTime (Entry.timestamp entry)).
Proof.
  unfold historyGrid. revert s.
  induction history as [|entry history IH] using rev_ind; intros s Hs.
  - cbn [foldl] in Hs. rewrite slotStatuses_emptyGrid in Hs.
    apply lookup_replicate_1 in Hs as [-> _]. by left.
  - rewrite foldl_app in Hs. cbn [foldl] in Hs.
    rewrite slotStatuses_fillEntry in Hs.
    destruct (Date_getTime (Entry.timestamp entry)) as [entryTime|] eqn:Hdate.
    + destruct (decide (Z.to_nat (minutesFromStart now entryTime) = i))
        as [<-|Hne].
      * rewrite list_lookup_alter_eq in Hs.
        right. exists entry. split; [|split].
        -- apply elem_of_app. right. apply list_elem_of_here.
        -- apply fmap_Some in Hs as (old & _ & ->). done.
        -- rewrite Hdate. by eexists.
      * rewrite list_lookup_alter_ne in Hs by done.
        destruct (IH s Hs) as [->|(e & He & Hst & Hd)]; [by left|].
        right. exists e. split; [|done]. apply elem_of_app. by left.
    + destruct (IH s Hs) as [->|(e & He & Hst & Hd)]; [by left|].
      right. exists e. split; [|done]. apply elem_of_app. by left.
Qed.

Lemma grid_statuses_from_history_witness :
  JStr "healthy" = JStr "unknown"
  \/ exists entry,
       entry ∈ [Entry.mk (JIso (sampleNow - 60000)) (JStr "healthy")]
       /\ Entry.status entry = JStr "healthy"
       /\ is_Some (Date_getTime (Entry.timestamp entry)).
Proof.
  apply (grid_statuses_from_history sampleNow
           [Entry.mk (JIso (sampleNow - 60000)) (JStr "healthy")]
           1439%nat (JStr "healthy")).
  vm_compute. reflexivity.
Defined.

Lemma minutesFromStart_div now entryTime :
  minutesFromStart now entryTime
  = Z.max 0 (Z.min 1439
               ((entryTime - (now - 86400000) + 30000) / 60000)).
Proof. unfold minutesFromStart. by rewrite Math_round_rawMinutes. Qed.

(** X21.  The mapping keeps the order of time: a later entry never goes
    to an earlier slot.  Entries from before the window, and up to half a
    minute into it, all go to slot 0; entries from 90 seconds before the
    clock reading on, the future included, all go to slot 1439. *)
Theorem minutesFromStart_monotone now t1 t2 :
  t1 <= t2 ->
  minutesFromStart now t1 <= minutesFromStart now t2
  /\ (t2 < now - minutesInDay * 60 * 1000 + 30 * 1000 ->
      minutesFromStart now t1 = 0)
  /\ (now - 90 * 1000 <= t1 -> minutesFromStart now t2 = minutesInDay - 1).
Proof.
  intros Hle. rewrite !minutesFromStart_div. unfold minutesInDay.
  pose proof (Z.div_le_mono (t1 - (now - 86400000) + 30000)
                (t2 - (now - 86400000) + 30000) 60000 ltac:(lia) ltac:(lia))
    as Hmono.
  split; [lia|]. split.
  - intros Hearly.
    assert ((t1 - (now - 86400000) + 30000) / 60000 < 1)
      by (apply Z.div_lt_upper_bound; lia).
    lia.
  - intros Hlate.
    assert (1439 <= (t2 - (now - 86400000) + 30000) / 60000)
      by (apply Z.div_le_lower_bound; lia).
    lia.
Qed.

Lemma minutesFromStart_monotone_witness :
  minutesFromStart sampleNow (sampleNow - 30 * 24 * 60 * 60 * 1000)
  <= minutesFromStart sampleNow (sampleNow - 2 * 24 * 60 * 60 * 1000)
  /\ (sampleNow - 2 * 24 * 60 * 60 * 1000
      < sampleNow - minutesInDay * 60 * 1000 + 30 * 1000 ->
      minutesFromStart sampleNow (sampleNow - 30 * 24 * 60 * 60 * 1000) = 0)
  /\ (sampleNow - 90 * 1000 <= sampleNow - 30 * 24 * 60 * 60 * 1000 ->
      minutesFromStart sampleNow (sampleNow - 2 * 24 * 60 * 60 * 1000)
      = minutesInDay - 1).
Proof.
  apply (minutesFromStart_monotone sampleNow
           (sampleNow - 30 * 24 * 60 * 60 * 1000)
           (sampleNow - 2 * 24 * 60 * 60 * 1000)).
  vm_compute. discriminate.
Defined.

(** X22.  Inside the window an entry goes to the slot of the nearest
    whole minute after the window start: within half a minute of minute
    [k] (the earlier half-minute mark included, the later one not) it is
    written to slot [k]. *)
Theorem minutesFromStart_nearest now k delta :
  0 <= k <= minutesInDay - 1 ->
  - (30 * 1000) <= delta < 30 * 1000 ->
  minutesFromStart now (now - minutesInDay * 60 * 1000 + k * (60 * 1000) + delta)
  = k.
Proof.
  unfold minutesInDay. intros Hk Hdelta. rewrite minutesFromStart_div.
  replace (now - 24 * 60 * 60 * 1000 + k * (60 * 1000) + delta
           - (now - 86400000) + 30000)
    with (k * 60000 + (delta + 30000)) by lia.
  rewrite Z.div_add_l by lia.
  rewrite Z.div_small by lia. lia.
Qed.

Lemma minutesFromStart_nearest_witness :
  minutesFromStart sampleNow
    (sampleNow - minutesInDay * 60 * 1000 + 720 * (60 * 1000) + 29999)
  = 720.
Proof.
  apply (minutesFromStart_nearest sampleNow 720 29999).
  - vm_compute. split; discriminate.
  - vm_compute. split; [discriminate | reflexivity].
Defined.

Lemma count_alter_setStatus (P : jsval -> bool) s (i : nat) grid :
  (length (List.filter (fun m => P (Cell.status m))
             (alter (setStatus s) i grid))
   <= length (List.filter (fun m => P (Cell.status m)) grid)
      + (if P s then 1 else 0))%nat.
Proof.
  revert i. induction grid as [|cell grid IH]; intros i; [simpl; lia|].
  destruct i as [|i]; simpl.
  - destruct (P s), (P (Cell.status cell)); simpl; lia.
  - specialize (IH i).
    change (list_alter (setStatus s) i grid)
      with (alter (setStatus s) i grid).
    destruct (P (Cell.status cell)); simpl; lia.
Qed.

Lemma count_emptyGrid (P : jsval -> bool) now :
  P (JStr "unknown") = false ->
  length (List.filter (fun m => P (Cell.status m)) (emptyGrid now)) = 0%nat.
Proof.
  intros Hunknown.
  assert (Forall (fun m => P (Cell.status m) = false) (emptyGrid now)) as Hall.
  { unfold emptyGrid. apply Forall_fmap, Forall_true. intros i. exact Hunknown. }
  induction Hall as [|m l Hm _ IHl]; [done|].
  cbn [List.filter]. by rewrite Hm.
Qed.

Lemma count_historyGrid (P : jsval -> bool) now history :
  P (JStr "unknown") = false ->
  (length (List.filter (fun m => P (Cell.status m)) (historyGrid now history))
   <= length (List.filter (fun entry => P (Entry.status entry)) history))%nat.
Proof.
  intros Hunknown. unfold historyGrid.
  induction history as [|entry history IH] using rev_ind.
  - cbn [foldl]. by rewrite count_emptyGrid.
  - rewrite foldl_app, List.filter_app, length_app.
    cbn [foldl List.filter].
    remember (foldl (fillEntry now) (emptyGrid now) history) as grid eqn:Hg.
    clear Hg.
    assert (length (List.filter (fun m => P (Cell.status m))
                      (fillEntry now grid entry))
            <= length (List.filter (fun m => P (Cell.status m)) grid)
               + (if P (Entry.status entry) then 1 else 0))%nat as Hstep.
    { unfold fillEntry.
      destruct (Date_getTime (Entry.timestamp entry)) as [entryTime|]; [|lia].
      destruct ((0 <=? _) && _); [|lia].
      apply count_alter_setStatus. }
    destruct (P (Entry.status entry)); cbn [length]; lia.
Qed.

Lemma count_disjoint {A} (P Q : A -> bool) (l : list A) :
  (forall x, P x = true -> Q x = false) ->
  (length (List.filter P l) + length (List.filter Q l) <= length l)%nat.
Proof.
  intros Hdisj. induction l as [|x l IH]; simpl; [lia|].
  destruct (P x) eqn:HP.
  - rewrite (Hdisj x HP). simpl. lia.
  - destruct (Q x); simpl; lia.
Qed.

(** X23.  The figures under the grid are bounded by the history: there
    are no more healthy minutes than healthy entries, no more minutes
    down than unhealthy entries, and the two together never exceed the
    1440 slots. *)
Theorem grid_counts_bounded now history :
  (healthyMinutes (historyGrid now history)
   <= length (List.filter (fun entry => strictEq (Entry.status entry) "healthy")
                history))%nat
  /\ (minutesDown (historyGrid now history)
      <= length (List.filter
                   (fun entry => strictEq (Entry.status entry) "unhealthy")
                   history))%nat
  /\ (healthyMinutes (historyGrid now history)
      + minutesDown (historyGrid now history) <= 1440)%nat.
Proof.
  unfold healthyMinutes, minutesDown. split_and!.
  - by apply (count_historyGrid (fun v => strictEq v "healthy")).
  - by apply (count_historyGrid (fun v => strictEq v "unhealthy")).
  - rewrite <- (length_historyGrid now history).
    apply count_disjoint. intros m. unfold strictEq.
    destruct (Cell.status m); try done.
    intros Hh%String.eqb_eq. by subst.
Qed.

(** ** persistence.js: all domains at once *)

Lemma foldl_insert_each {V} (f : string -> V) (ds : list string) domain :
  foldl (fun m d => <[d := f d]> m) (∅ : gmap string V) ds !! domain
  = if decide (domain ∈ ds) then Some (f domain) else None.
Proof.
  induction ds as [|d ds IH] using rev_ind.
  - cbn [foldl]. rewrite lookup_empty.
    destruct (decide (domain ∈ [])) as [Hin|_]; [|done].
    by apply not_elem_of_nil in Hin.
  - rewrite foldl_app. cbn [foldl].
    destruct (decide (d = domain)) as [->|Hne].
    + rewrite lookup_insert_eq, decide_True; [done|].
      apply elem_of_app. right. apply list_elem_of_here.
    + rewrite lookup_insert_ne, IH by done.
      destruct (decide (domain ∈ ds)) as [Hin|Hnin].
      * rewrite decide_True; [done|]. apply elem_of_app. by left.
      * rewrite decide_False; [done|].
        intros [Hin|Hin]%elem_of_app; [done|].
        apply list_elem_of_singleton in Hin. congruence.
Qed.

(** X24.  [loadAllHistory] gives every listed domain a key, with what
    [loadDomainHistory] returns for it, the empty history included, and
    no key to any other domain. *)
Theorem loadAllHistory_lookup domains now d domain :
  Persistence.loadAllHistory domains now d !! domain
  = if decide (domain ∈ domains)
    then Some (Persistence.loadDomainHistory domain now d)
    else None.
Proof.
  unfold Persistence.loadAllHistory.
  apply (foldl_insert_each
           (fun domain => Persistence.loadDomainHistory domain now d)).
Qed.

Lemma saveAllHistory_snoc entries entry now d :
  Persistence.saveAllHistory (entries ++ [entry]) now d
  = Persistence.saveDomainHistory entry.1 entry.2 now
      (Persistence.saveAllHistory entries now d).
Proof. unfold Persistence.saveAllHistory. by rewrite foldl_app. Qed.

Lemma saveAllHistory_writable entries now d :
  writable (Persistence.saveAllHistory entries now d) = writable d.
Proof.
  induction entries as [|entry entries IH] using rev_ind; [done|].
  rewrite saveAllHistory_snoc. unfold Persistence.saveDomainHistory.
  destruct (writable (Persistence.saveAllHistory entries now d)) eqn:Hw;
    simpl; congruence.
Qed.

Lemma getDomainFilePath_eq d1 d2 :
  Persistence.getDomainFilePath d1 = Persistence.getDomainFilePath d2
  <-> sanitize d1 = sanitize d2.
Proof. apply getDomainFileName_eq. Qed.

Lemma saveAllHistory_file entries now d domain history :
  writable d = true ->
  NoDup (sanitize <$> entries.*1) ->
  (domain, history) ∈ entries ->
  files (Persistence.saveAllHistory entries now d)
    !! Persistence.getDomainFilePath domain
  = Some (stored (List.filter (Persistence.recent now) history)).
Proof.
  intros Hw.
  induction entries as [|entry entries IH] using rev_ind; intros Hnodup Hin.
  - by apply not_elem_of_nil in Hin.
  - rewrite saveAllHistory_snoc. unfold Persistence.saveDomainHistory.
    rewrite saveAllHistory_writable, Hw. cbn [files].
    rewrite !fmap_app in Hnodup. apply NoDup_app in Hnodup as (Hnd & Hdisj & _).
    apply elem_of_app in Hin as [Hin|Hin].
    + rewrite lookup_insert_ne; [by apply IH|].
      intros Heq%getDomainFilePath_eq.
      apply (Hdisj (sanitize domain)).
      * apply list_elem_of_fmap. exists domain. split; [done|].
        apply list_elem_of_fmap. by exists (domain, history).
      * rewrite <- Heq. apply list_elem_of_here.
    + apply list_elem_of_singleton in Hin as <-. apply lookup_insert_eq.
Qed.

(** X25.  [saveAllHistory] followed by [loadAllHistory]: with a
    writable directory, domains that all have different file names, and a
    load no earlier than the save, every domain gets back its history
    trimmed to the 30 days before the load. *)
Theorem saveAll_loadAll_roundtrip entries now now' d domain history :
  writable d = true ->
  NoDup (sanitize <$> entries.*1) ->
  now <= now' ->
  (domain, history) ∈ entries ->
  Persistence.loadAllHistory entries.*1 now'
    (Persistence.saveAllHistory entries now d) !! domain
  = Some (keepLastMonth now' history).
Proof.
  intros Hw Hnodup Hle Hin.
  unfold Persistence.loadAllHistory.
  rewrite (foldl_insert_each
             (fun domain => Persistence.loadDomainHistory domain now'
                              (Persistence.saveAllHistory entries now d))),
    decide_True.
  - f_equal. unfold Persistence.loadDomainHistory.
    rewrite (saveAllHistory_file entries now d domain history Hw Hnodup Hin).
    unfold stored. rewrite filterElems_objects.
    apply (keepLastMonth_twice now now' history Hle).
  - apply list_elem_of_fmap. by exists (domain, history).
Qed.

Lemma saveAll_loadAll_roundtrip_witness :
  Persistence.loadAllHistory
    [("https://example.com", completeHistory);
     ("https://example.org", sampleHistory)].*1 (sampleNow + 60000)
    (Persistence.saveAllHistory
       [("https://example.com", completeHistory);
        ("https://example.org", sampleHistory)] sampleNow (mkDisk true ∅))
    !! "https://example.org"
  = Some (keepLastMonth (sampleNow + 60000) sampleHistory).
Proof.
  apply (saveAll_loadAll_roundtrip
           [("https://example.com", completeHistory);
            ("https://example.org", sampleHistory)]
           sampleNow (sampleNow + 60000) (mkDisk true ∅)).
  - reflexivity.
  - apply (bool_decide_unpack _). vm_compute. reflexivity.
  - lia.
  - apply list_elem_of_further, list_elem_of_here.
Defined.

(** ** Start-up and the first pass *)

(** X26.  Started on the world the module sets up, with at least one
    domain configured, the first pass meets no domain without a state:
    if it rejects, it is with an error of the webhook; and if the webhook
    takes every message, every configured domain ends checked. *)
Theorem start_first_pass config interval probe loadedAt now d :
  domains config <> [] ->
  exists r next,
    start config interval probe loadedAt now (initialWorld config d)
    = Some (r, next)
    /\ (forall e, rejected r = Some e ->
          exists i n, slack (probe i) n = Some e)
    /\ ((forall i n, slack (probe i) n = None) ->
        rejected r = None
        /\ forall domain, domain ∈ domains config -> checked (world r) domain).
Proof.
  intros Hdomains. unfold start.
  destruct (domains config) as [|d0 ds0] eqn:Hds; [done|].
  cbn [length Nat.eqb]. rewrite <- Hds. clear Hdomains.
  eexists _, _. split; [reflexivity|].
  assert (forall domain, domain ∈ domains config ->
            is_Some (healthState
                       (loadAllPersistedData config loadedAt
                          (initialWorld config d)) !! domain)) as Hconf.
  { intros domain Hin. destruct config as [ds timeout].
    destruct (loadAllPersistedData_fold timeout ds loadedAt
                (initialWorld (mkConfig ds timeout) d) domain) as (-> & _).
    unfold initialWorld. cbn [healthState domains] in *.
    rewrite (foldl_insert_const initialState ds domain).
    rewrite decide_True by done. by eexists. }
  unfold runHealthChecks. cbn [fst].
  remember (loadAllPersistedData config loadedAt (initialWorld config d))
    as w eqn:Hw. clear Hw.
  split.
  - clear Hds. generalize 0%nat as i. revert w Hconf.
    induction (domains config) as [|domain ds IH]; intros w Hconf i e;
      cbn [checkEach rejected]; [done|].
    destruct (rejected (checkDomain config domain (probe i) w)) as [e'|]
      eqn:Hrej.
    + rewrite Hrej. intros [= ->].
      destruct (checkDomain_rejects_only_cases config domain (probe i) w e
                  Hrej) as [Hnone|(n & _ & Hn)].
      * destruct (Hconf domain) as [state Hstate]; [apply list_elem_of_here|].
        congruence.
      * by exists i, n.
    + cbn [rejected]. apply IH. intros other Hin.
      destruct (Hconf other) as [state Hstate]; [by right|].
      destruct (decide (other = domain)) as [->|Hne].
      * destruct (checkDomain_CheckStep config domain (probe i) w state Hstate)
          as (state' & Hstate' & _). by eexists.
      * rewrite (proj1 (checkDomain_frame config domain (probe i) w other Hne)).
        by eexists.
  - intros Hslack.
    destruct (checkEach_accepted config probe (domains config) Hslack 0%nat w
                Hconf) as (Hrej & _ & _ & Hall).
    done.
Qed.

Lemma start_first_pass_witness :
  exists r next,
    start sampleConfig 1 (fun _ : nat => passingProbe 0) 0 60
      (initialWorld sampleConfig (mkDisk true ∅))
    = Some (r, next)
    /\ (forall e, rejected r = Some e ->
          exists i n, slack ((fun _ : nat => passingProbe 0) i) n = Some e)
    /\ ((forall i n, slack ((fun _ : nat => passingProbe 0) i) n = None) ->
        rejected r = None
        /\ forall domain,
             domain ∈ domains sampleConfig -> checked (world r) domain).
Proof.
  apply (start_first_pass sampleConfig 1 (fun _ : nat => passingProbe 0) 0 60
           (mkDisk true ∅)).
  discriminate.
Defined.

(** ** A recovery message the webhook turns down *)

(** A check that passes, against a webhook that refuses the recovery
    message and takes the others. *)
Definition refusedRecoveryProbe (at_ : Z) : Probe :=
  mkProbe at_ (inl (mkResponse 200 "ok")) (at_ + 50) (at_ + 60)
    (fun n => match n with
              | Recovered _ => Some "connect ECONNREFUSED"
              | _ => None
              end).

(** Twenty such checks, a minute apart. *)
Definition twentyPassing : list Probe :=
  (fun i => refusedRecoveryProbe (Z.of_nat i * 60000)) <$> seq 0 20.

(** C4.  Twenty checks in a row that all pass, with a webhook that
    refuses the recovery message: the tenth and the twentieth check each
    send the recovery message and then an alert, and the domain ends
    unhealthy with one failure counted, although no check failed.  The
    recovery trigger fires twice in one unbroken run of successes and the
    alert fires on a healthy check. *)
Theorem refused_recovery_fires_twice :
  classify sampleConfig <$> twentyPassing = replicate 20 None
  /\ sent <$> checks sampleConfig "https://example.com" twentyPassing
                sampleWorld
     = replicate 9 []
       ++ [[Recovered "https://example.com";
            Alert "https://example.com" "connect ECONNREFUSED"]]
       ++ replicate 9 []
       ++ [[Recovered "https://example.com";
            Alert "https://example.com" "connect ECONNREFUSED"]]
  /\ healthState (after sampleConfig "https://example.com" twentyPassing
                    sampleWorld) !! "https://example.com"
     = Some {| status := unhealthy;
               lastCheck := Some 1140060;
               lastError := Some "connect ECONNREFUSED";
               consecutiveErrors := 1;
               consecutiveSuccesses := 0;
               responseTime := Some 60 |}.
Proof.
  split; [|split].
  - vm_compute. reflexivity.
  - vm_compute. reflexivity.
  - vm_compute. reflexivity.
Qed.

(** ** An entry that has outlived the window *)


